(** * ZKredit: arithmetic circuits and verifier contracts

    A shallow embedding of the four circom circuits of the repository
    (credit history, Merkle membership, collateral, income), of the two
    Solidity verifier contracts ([ZKCreditVerifier], [Verifier]) and of
    proof generation in the proof service of the agent backend
    ([ZKProofService]), followed by the properties of the specification
    stated over that embedding.

    Circuits are embedded by their witness computation: a template is a
    function from its input signals to [option] of its output signals.
    [x <== e] assigns [e] to [x]; [a === b] is a constraint, and a witness
    that violates one constraint does not exist ([None]).

    Several templates are not accepted by the circom compiler as they are
    written: a division by a signal or a product of more than two signals
    under [<==] (credit history, collateral), a signal assigned more than
    once, declared inside a loop or tested in a branch (Merkle).  For
    these the embedding follows the computation that the statements
    describe, read in order; the circuit as compiled has no more witnesses
    than the embedding, so what is proved of every witness, and every
    absence of a witness, holds of it as well. *)

From stdpp Require Import gmap strings list.
From Stdlib Require Import ZArith Lia Ascii.

Local Open Scope Z_scope.

(** ** Field arithmetic *)

Module Field.

(** The scalar field of circom's default curve (bn128). *)
Definition p : Z :=
  21888242871839275222246405745257275088548364400416034343698204186575808495617.

Definition F := Z.

Definition in_field (x : F) : Prop := 0 <= x < p.

Definition fadd (a b : F) : F := (a + b) mod p.
Definition fsub (a b : F) : F := (a - b) mod p.
Definition fmul (a b : F) : F := (a * b) mod p.

(** [a ^ e mod p] by repeated squaring. *)
Fixpoint fpow_pos (a : F) (e : positive) : F :=
  match e with
  | xH => a mod p
  | xO e' => let r := fpow_pos a e' in fmul r r
  | xI e' => let r := fpow_pos a e' in fmul (fmul r r) a
  end.

Definition fpow (a : F) (e : Z) : F :=
  match e with
  | Zpos e' => fpow_pos a e'
  | _ => 1
  end.

(** The multiplicative inverse [a ^ (p - 2)]; the inverse of zero is zero,
    as the witness calculator computes it. *)
Definition finv (a : F) : F := fpow a (p - 2).

(** circom's [/] is multiplication by the inverse modulo [p]; the integer
    quotient is a different operator. *)
Definition fdiv (a b : F) : F := fmul a (finv b).

End Field.

Export Field.

(** ** Constraints *)

(** [a === b] *)
Definition constrain (a b : F) : option unit :=
  if a =? b then Some tt else None.

Notation "'do' x <- c 'in' k" :=
  (match c with Some x => k | None => None end)
  (at level 10, x name, c at level 100, k at level 200, only parsing).
Notation "'check' c 'in' k" :=
  (match c with Some _ => k | None => None end)
  (at level 10, c at level 100, k at level 200, only parsing).

(** ** Comparator gadgets *)

Module Comparators.

(** comparators.circom is included by the circuits but is not among the
    sources.  Each gadget takes field elements, compared as reduced
    integers, and produces 0 or 1; [n] is the bit width of the
    comparator, and the gadgets are meant for inputs below [2 ^ n]: the
    properties that depend on a comparison take their inputs in that
    range. *)

(** Modelled from the spec: [LessThan(a,b)] is 1 iff [a < b]. *)
Definition LessThan (n : Z) (a b : F) : F := if a <? b then 1 else 0.

(** Modelled from the spec: [LessEqThan(a,b)] is 1 iff [a <= b]. *)
Definition LessEqThan (n : Z) (a b : F) : F := if a <=? b then 1 else 0.

(** Modelled from the spec: [GreaterEqThan(a,b)] is 1 iff [a >= b]. *)
Definition GreaterEqThan (n : Z) (a b : F) : F := if b <=? a then 1 else 0.

(** Modelled from the spec: [IsZero(a)] is 1 iff [a = 0]. *)
Definition IsZero (a : F) : F := if a =? 0 then 1 else 0.

End Comparators.

Export Comparators.

(** ** income_verifier.circom *)

Module Income.

Record Inputs := {
  minIncome : F;
  maxIncome : F;
  actualIncome : F
}.

(** [template IncomeVerifier()]; the result is the output [commitment]. *)
Definition IncomeVerifier (i : Inputs) : option F :=
  check constrain (GreaterEqThan 252 (actualIncome i) (minIncome i)) 1 in
  check constrain (LessEqThan 252 (actualIncome i) (maxIncome i)) 1 in
  let commitment := actualIncome i in
  check constrain (LessEqThan 252 (minIncome i) (maxIncome i)) 1 in
  check constrain (GreaterEqThan 252 (actualIncome i) 0) 1 in
  check constrain (GreaterEqThan 252 (minIncome i) 0) 1 in
  check constrain (GreaterEqThan 252 (maxIncome i) 0) 1 in
  Some commitment.

(** [component main {public [minIncome, maxIncome]}]: the public signal
    vector holds the outputs first, then the public inputs. *)
Definition publicSignals (i : Inputs) : option (list F) :=
  do commitment <- IncomeVerifier i in
  Some [commitment; minIncome i; maxIncome i].

End Income.

(** ** credit_history_verifier.circom *)

Module CreditHistory.

Record Inputs := {
  creditScoreMin : F;
  creditScoreMax : F;
  minHistoryLength : F;
  creditScore : F;
  historyLength : F;
  defaultCount : F;
  recentLatePayments : F
}.

Record Outputs := {
  creditRating : F;
  isEligible : F
}.

(** [template MultiDivision()]; the result is the output [remainder]: the
    value that [remainder <== scaledDividend / divisor] assigns.  As a
    constraint that line is not quadratic. *)
Definition MultiDivision (dividend divisor ratio : F) : F :=
  let scaledDividend := fmul dividend ratio in
  fdiv scaledDividend divisor.

(** [template CreditHistoryVerifier()] *)
Definition CreditHistoryVerifier (i : Inputs) : option Outputs :=
  check constrain (GreaterEqThan 252 (creditScore i) (creditScoreMin i)) 1 in
  check constrain (LessEqThan 252 (creditScore i) (creditScoreMax i)) 1 in
  check constrain (GreaterEqThan 252 (historyLength i) (minHistoryLength i)) 1 in
  check constrain (IsZero (defaultCount i)) 1 in
  check constrain (LessEqThan 252 (recentLatePayments i) 3) 1 in
  let isEligible := 1 in
  let creditRating := MultiDivision (creditScore i) 850 100 in
  check constrain (GreaterEqThan 252 (creditScore i) 0) 1 in
  check constrain (GreaterEqThan 252 (historyLength i) 0) 1 in
  check constrain (LessEqThan 252 (creditScore i) 850) 1 in
  Some {| creditRating := creditRating; isEligible := isEligible |}.

(** The eligibility checks as the specification lists them, combined by
    multiplication of their 0/1 results. *)
Definition eligibility_checks (i : Inputs) : F :=
  GreaterEqThan 252 (creditScore i) (creditScoreMin i)
  * LessEqThan 252 (creditScore i) (creditScoreMax i)
  * GreaterEqThan 252 (historyLength i) (minHistoryLength i)
  * IsZero (defaultCount i)
  * LessEqThan 252 (recentLatePayments i) 3
  * (GreaterEqThan 252 (creditScore i) 0 * LessEqThan 252 (creditScore i) 850).

(** Every input signal is within the width of the 252-bit comparators. *)
Definition inputs_in_width (i : Inputs) : Prop :=
  0 <= creditScoreMin i < 2 ^ 252 /\ 0 <= creditScoreMax i < 2 ^ 252 /\
  0 <= minHistoryLength i < 2 ^ 252 /\ 0 <= creditScore i < 2 ^ 252 /\
  0 <= historyLength i < 2 ^ 252 /\ 0 <= defaultCount i < 2 ^ 252 /\
  0 <= recentLatePayments i < 2 ^ 252.

End CreditHistory.


(** ** merkle_tree.circom *)

Module Merkle.

(** [template IsBinary()]: [out <== in * (1 - in); out === 0]. *)
Definition IsBinary (inp : F) : option F :=
  let out := fmul inp (fsub 1 inp) in
  check constrain out 0 in
  Some out.

(** [template IsEqual()] *)
Definition IsEqual (in0 in1 : F) : F := if in0 =? in1 then 1 else 0.

Section WithHash.

(** [Poseidon(n)] of hashes/poseidon/poseidon.circom, which is not among
    the sources: any function of the input array. *)
Variable Poseidon : list F -> F.

(** One round of the loop over the levels: the children are ordered by
    the path direction and hashed. *)
Definition hash_level (pathIndices pathElements : list F)
    (currentHash : F) (i : nat) : F :=
  let '(leftChild, rightChild) :=
    if nth i pathIndices 0 =? 0
    then (currentHash, nth i pathElements 0)
    else (nth i pathElements 0, currentHash) in
  Poseidon [leftChild; rightChild].

(** The second loop: [binaryCheck.in <== pathIndices[i];
    binaryCheck.out === isValid]. *)
Fixpoint binary_checks (pathIndices : list F) (isValid : F) (levelIdx : list nat)
    : option unit :=
  match levelIdx with
  | [] => Some tt
  | i :: levelIdx' =>
      do out <- IsBinary (nth i pathIndices 0) in
      check constrain out isValid in
      binary_checks pathIndices isValid levelIdx'
  end.

(** [template MerkleTreeVerifier(levels)]; the arrays hold [levels]
    signals each, and the result is the output [isValid].  The template
    assigns [currentHash] once per level and branches on
    [pathIndices[i]]; it is read as the computation these statements
    describe, level after level. *)
Definition MerkleTreeVerifier (levels : nat) (root : F) (pathIndices : list F)
    (leafHash : F) (pathElements : list F) : option F :=
  if negb ((length pathIndices =? levels)%nat
           && (length pathElements =? levels)%nat) then None else
  let currentHash :=
    fold_left (hash_level pathIndices pathElements) (seq 0 levels) leafHash in
  let isValid := if currentHash =? root then 1 else 0 in
  check constrain (IsEqual currentHash root) isValid in
  check binary_checks pathIndices isValid (seq 0 levels) in
  Some isValid.

(** One proof of a batch: [batchRoots[i]], [batchLeaves[i]],
    [batchPaths[i]], [batchIndices[i]]. *)
Record BatchEntry := {
  batchRoot : F;
  batchLeaf : F;
  batchPath : list F;
  batchIndex : list F
}.

(** The first loop of the batch template: one verifier per entry,
    [validityFlags[i] <== verifiers[i].isValid]. *)
Fixpoint validity_flags (levels : nat) (batch : list BatchEntry)
    : option (list F) :=
  match batch with
  | [] => Some []
  | e :: batch' =>
      do flag <- MerkleTreeVerifier levels (batchRoot e) (batchIndex e)
                (batchLeaf e) (batchPath e) in
      do flags <- validity_flags levels batch' in
      Some (flag :: flags)
  end.

(** [template BatchMerkleVerifier(batchSize, levels)]; the result is the
    output [allValid].  [allValid] is multiplied by every flag in the
    first loop and once more by every flag but the first in the loop that
    wires [allValidCheck]; with no entry, [allValidCheck.in[0]] is never
    assigned and the template has no witness.  [allValid] is assigned
    more than once in the template; it is read as the running value of
    these assignments. *)
Definition BatchMerkleVerifier (batchSize levels : nat)
    (batch : list BatchEntry) : option F :=
  if negb (length batch =? batchSize)%nat then None else
  do validityFlags <- validity_flags levels batch in
  let allValid := fold_left fmul validityFlags 1 in
  match validityFlags with
  | [] => None
  | flag0 :: rest =>
      let allValid := fold_left fmul rest allValid in
      check constrain (IsEqual flag0 1) allValid in
      Some allValid
  end.

(** [template IdentityVerification(levels)]; the result is the output
    [verificationResult]. *)
Definition IdentityVerification (levels : nat) (identityRoot : F)
    (pathIndices : list F) (userHash : F) (identityPath : list F)
    : option F :=
  do isValid <- MerkleTreeVerifier levels identityRoot pathIndices userHash
                  identityPath in
  let verificationResult := isValid in
  Some verificationResult.

(** [template TransactionVerification(levels)]; the result is the output
    [transactionValid]. *)
Definition TransactionVerification (levels : nat) (transactionRoot : F)
    (pathIndices : list F) (transactionHash : F) (transactionPath : list F)
    (timestamp currentTime : F) : option F :=
  check constrain (GreaterEqThan 252 (fsub currentTime timestamp) 0) 1 in
  do isValid <- MerkleTreeVerifier levels transactionRoot pathIndices
                  transactionHash transactionPath in
  let transactionValid := isValid in
  Some transactionValid.

End WithHash.

End Merkle.

(** ** collateral_verifier.circom *)

Module Collateral.

Record Inputs := {
  requiredCollateralValue : F;
  collateralRatio : F;
  minCollateralAge : F;
  actualCollateralValue : F;
  collateralAge : F;
  loanAmount : F;
  hasLiens : F;
  ownershipVerified : F;
  assetHash : F;
  assetType : F;
  geographicRisk : F;
  marketVolatility : F
}.

Record Outputs := {
  collateralStatus : F;
  collateralScore : F
}.

(** [template Multiplication()] *)
Definition Multiplication (a b : F) : F := fmul a b.

(** [template MinComparator()]: [a * lessThan + b * (1 - lessThan)]. *)
Definition MinComparator (a b : F) : F :=
  let lessThan := LessThan 252 a b in
  let notLess := fsub 1 lessThan in
  let aWeighted := fmul a lessThan in
  let bWeighted := fmul b notLess in
  fadd aWeighted bWeighted.

(** [template IsOne()]: [out === 1; in === out].  No statement assigns
    [out]: the signal keeps the value 0 that every signal starts with, and
    the first constraint fails for every input. *)
Definition IsOne (inp : F) : option F :=
  let out := 0 in
  check constrain out 1 in
  check constrain inp out in
  Some out.

(** [template CollateralVerifier()]: the values that its statements
    assign, in order.  The division by [loanAmount] and the product of
    the six flags are not quadratic as constraints. *)
Definition CollateralVerifier (i : Inputs) : option Outputs :=
  let collateralValue100 := fmul (actualCollateralValue i) 100 in
  let collateralRatioCalculated := fdiv collateralValue100 (loanAmount i) in
  check constrain
    (GreaterEqThan 252 collateralRatioCalculated (collateralRatio i)) 1 in
  check constrain
    (GreaterEqThan 252 (collateralAge i) (minCollateralAge i)) 1 in
  let ageRequirementMet := 1 in
  check constrain
    (GreaterEqThan 252 (actualCollateralValue i) (requiredCollateralValue i)) 1 in
  let valueRequirementMet := 1 in
  check constrain (IsZero (hasLiens i)) 1 in
  let liensCheckPassed := 1 in
  do verifiedOwnership <- IsOne (ownershipVerified i) in
  check constrain verifiedOwnership 1 in
  let ownershipCheckPassed := 1 in
  check constrain (LessEqThan 252 (geographicRisk i) 80) 1 in
  let geographicCheckPassed := 1 in
  check constrain (LessEqThan 252 (marketVolatility i) 70) 1 in
  let volatilityCheckPassed := 1 in
  let collateralStatus :=
    fmul (fmul (fmul (fmul (fmul ownershipCheckPassed liensCheckPassed)
      valueRequirementMet) ageRequirementMet) geographicCheckPassed)
      volatilityCheckPassed in
  let ratioBonus :=
    Multiplication (fsub collateralRatioCalculated (collateralRatio i)) 2 in
  let ratioScore := MinComparator ratioBonus 40 in
  let ageBonus := fmul (fsub (collateralAge i) (minCollateralAge i)) 1 in
  let ageScore := MinComparator ageBonus 20 in
  let geoScore := fsub 100 (geographicRisk i) in
  let volatilityScore := fsub 100 (marketVolatility i) in
  let weightedRatio := fdiv (fmul ratioScore 40) 100 in
  let weightedAge := fdiv (fmul ageScore 20) 100 in
  let weightedGeo := fdiv (fmul (fdiv (fmul geoScore 100) 100) 20) 100 in
  let weightedVol := fdiv (fmul (fdiv (fmul volatilityScore 100) 100) 20) 100 in
  let totalScore :=
    fadd (fadd (fadd weightedRatio weightedAge) weightedGeo) weightedVol in
  let collateralScore := MinComparator totalScore 100 in
  check constrain (GreaterEqThan 252 (actualCollateralValue i) 0) 1 in
  check constrain (GreaterEqThan 252 (collateralAge i) 0) 1 in
  check constrain (GreaterEqThan 252 (requiredCollateralValue i) 0) 1 in
  Some {| collateralStatus := collateralStatus;
          collateralScore := collateralScore |}.

End Collateral.

(** ** Solidity preliminaries *)

Module Solidity.

(** The outcome of a call: a returned value, a failed [require] with its
    message, or a panic (0x11 is arithmetic overflow or underflow, which
    Solidity 0.8 checks).  A call that does not return leaves the state
    as it was. *)
Inductive result (A : Type) : Type :=
  | Ok (a : A)
  | Revert (reason : string)
  | Panic (code : Z).

Arguments Ok {A} a.
Arguments Revert {A} reason.
Arguments Panic {A} code.

Definition UINT8_MAX : Z := 2 ^ 8 - 1.
Definition UINT16_MAX : Z := 2 ^ 16 - 1.
Definition UINT256_MAX : Z := 2 ^ 256 - 1.

(** Checked arithmetic in an unsigned type with largest value [max]. *)
Definition checked (max : Z) (v : Z) : result Z :=
  if (0 <=? v) && (v <=? max) then Ok v else Panic 17.

(** The arguments of [abi.encodePacked]. *)
Inductive abi_item : Type :=
  | abi_uint (v : Z)
  | abi_uints (vs : list Z)
  | abi_bytes (bs : list Z)
  | abi_string (s : string)
  | abi_address (a : Z).

Record Env := {
  block_timestamp : Z;
  msg_sender : Z;
  gasleft : Z
}.

End Solidity.

Export Solidity.

Notation "'require' c 'else' msg 'in' k" :=
  (if c then k else Revert msg)
  (at level 10, c at level 100, msg at level 100, k at level 200,
   only parsing).
Notation "'let!' x := c 'in' k" :=
  (match c with Ok x => k | Revert r => Revert r | Panic e => Panic e end)
  (at level 10, x name, c at level 100, k at level 200, only parsing).

(** ** ZKCreditVerifier.sol *)

Module ZKCreditVerifier.

Record VerificationResult := {
  isValid : bool;
  verificationLevel : Z;
  timestamp : Z;
  verifier : Z
}.

Inductive VerificationLevel := Basic | Enhanced | Premium.

(** The field [verificationLevel] of the contract's struct is
    [userVerificationLevel] here. *)
Record UserCreditInfo := {
  creditScoreTier : Z;
  verifiedIncomeMin : Z;
  verifiedIncomeMax : Z;
  userVerificationLevel : VerificationLevel;
  lastUpdated : Z
}.

Inductive Event :=
  | ProofVerified (proofId verifier : Z) (isValid : bool)
      (verificationLevel : Z)
  | CreditAssessmentUpdated (user creditScoreTier incomeMin incomeMax : Z).

(** The storage of the contract and the log of emitted events.  A mapping
    reads as the zero value at a key that was never written. *)
Record State := {
  verificationKeys : gmap string (list Z);
  verifiedIdentities : gmap Z VerificationResult;
  userCreditInfo : gmap Z UserCreditInfo;
  events : list Event
}.

Definition init : State :=
  {| verificationKeys := ∅; verifiedIdentities := ∅; userCreditInfo := ∅;
     events := [] |}.

Definition zeroVerificationResult : VerificationResult :=
  {| isValid := false; verificationLevel := 0; timestamp := 0; verifier := 0 |}.

Definition zeroUserCreditInfo : UserCreditInfo :=
  {| creditScoreTier := 0; verifiedIncomeMin := 0; verifiedIncomeMax := 0;
     userVerificationLevel := Basic; lastUpdated := 0 |}.

(** [verifiedIdentities[proofId]] *)
Definition verifiedIdentities_at (st : State) (proofId : Z)
    : VerificationResult :=
  default zeroVerificationResult (verifiedIdentities st !! proofId).

(** [userCreditInfo[user]] *)
Definition userCreditInfo_at (st : State) (user : Z) : UserCreditInfo :=
  default zeroUserCreditInfo (userCreditInfo st !! user).

Section WithKeccak.

(** [keccak256(abi.encodePacked(...))], a primitive of the platform, read
    as an unsigned integer. *)
Variable keccak256 : list abi_item -> Z.

Definition _validateZKProof (proof publicSignals : list Z)
    (verificationKeyName : string) : bool :=
  let proofHash :=
    keccak256 [abi_uints proof; abi_uints publicSignals;
               abi_string verificationKeyName] mod 100 in
  proofHash <? 90.

Definition verifyProof (env : Env) (st : State) (proofId : Z)
    (proof publicSignals : list Z) (verificationKeyName : string)
    (verificationLevel : Z) : result (bool * State) :=
  require (0 <? Z.of_nat (length proof)) else "Invalid proof" in
  require (0 <? Z.of_nat (length publicSignals))
    else "Invalid public signals" in
  require (0 <? Z.of_nat (String.length verificationKeyName))
    else "Invalid verification key name" in
  require (verificationLevel <=? 2) else "Invalid verification level" in
  let isValid := _validateZKProof proof publicSignals verificationKeyName in
  if isValid then
    let result :=
      {| isValid := true; verificationLevel := verificationLevel;
         timestamp := block_timestamp env; verifier := msg_sender env |} in
    Ok (isValid,
        {| verificationKeys := verificationKeys st;
           verifiedIdentities := <[proofId := result]> (verifiedIdentities st);
           userCreditInfo := userCreditInfo st;
           events := events st ++
             [ProofVerified proofId (msg_sender env) true verificationLevel] |})
  else Ok (isValid, st).

End WithKeccak.

Definition updateCreditAssessment (env : Env) (st : State) (user : Z)
    (creditScoreTier incomeMin incomeMax : Z)
    (verificationLevel : VerificationLevel) : result State :=
  require (negb (user =? 0)) else "Invalid user address" in
  require ((1 <=? creditScoreTier) && (creditScoreTier <=? 5))
    else "Invalid credit score tier" in
  require (incomeMin <=? incomeMax) else "Invalid income range" in
  let userInfo :=
    {| creditScoreTier := creditScoreTier;
       verifiedIncomeMin := incomeMin;
       verifiedIncomeMax := incomeMax;
       userVerificationLevel := verificationLevel;
       lastUpdated := block_timestamp env |} in
  Ok {| verificationKeys := verificationKeys st;
        verifiedIdentities := verifiedIdentities st;
        userCreditInfo := <[user := userInfo]> (userCreditInfo st);
        events := events st ++
          [CreditAssessmentUpdated user creditScoreTier incomeMin incomeMax] |}.

(** The result is [(isApproved, maxAmount, interestRate)].  The type of
    each operation is the one the compiler gives it: [6 - creditScore] and
    [creditScore * 200] are [uint8], the product with [50000] and the sum
    with [300] are [uint16], and the conditional evaluates one branch. *)
Definition getCreditDecision (st : State) (user requestedAmount : Z)
    : result (bool * Z * Z) :=
  let userInfo := userCreditInfo_at st user in
  require (0 <? lastUpdated userInfo)
    else "No credit information available" in
  let creditScore := creditScoreTier userInfo in
  let! incomeRange :=
    checked UINT256_MAX (verifiedIncomeMax userInfo - verifiedIncomeMin userInfo) in
  let! diff := checked UINT8_MAX (6 - creditScore) in
  let! approvalThreshold := checked UINT16_MAX (50000 * diff) in
  let hasSufficientIncome := 1000 <? incomeRange in
  let isApproved := (creditScore <=? 3) && hasSufficientIncome in
  let maxAmount := if isApproved then approvalThreshold else 0 in
  if isApproved then
    let! scaled := checked UINT8_MAX (creditScore * 200) in
    let! interestRate := checked UINT16_MAX (300 + scaled) in
    Ok (isApproved, maxAmount, interestRate)
  else Ok (isApproved, maxAmount, 0).

Definition getVerificationStatus (st : State) (proofId : Z) : bool * Z * Z :=
  let result := verifiedIdentities_at st proofId in
  (isValid result, verificationLevel result, timestamp result).

Definition getUserCreditInfo (st : State) (user : Z)
    : result UserCreditInfo :=
  let userInfo := userCreditInfo_at st user in
  require (0 <? lastUpdated userInfo)
    else "No credit information available" in
  Ok userInfo.

Definition setVerificationKey (st : State) (keyName : string)
    (keyData : list Z) : result State :=
  require (0 <? Z.of_nat (String.length keyName)) else "Invalid key name" in
  require (0 <? Z.of_nat (length keyData)) else "Invalid key data" in
  Ok {| verificationKeys := <[keyName := keyData]> (verificationKeys st);
        verifiedIdentities := verifiedIdentities st;
        userCreditInfo := userCreditInfo st;
        events := events st |}.

(** A transaction: one of the state-changing entry points with its
    arguments. *)
Inductive Call :=
  | CallVerifyProof (proofId : Z) (proof publicSignals : list Z)
      (verificationKeyName : string) (verificationLevel : Z)
  | CallUpdateCreditAssessment (user creditScoreTier incomeMin incomeMax : Z)
      (verificationLevel : VerificationLevel)
  | CallSetVerificationKey (keyName : string) (keyData : list Z).

Section Transactions.

Variable keccak256 : list abi_item -> Z.

(** A transaction that reverts or panics changes nothing. *)
Definition execute (st : State) (tx : Env * Call) : State :=
  let '(env, call) := tx in
  match call with
  | CallVerifyProof proofId proof publicSignals name level =>
      match verifyProof keccak256 env st proofId proof publicSignals name level
      with Ok (_, st') => st' | _ => st end
  | CallUpdateCreditAssessment user tier incomeMin incomeMax level =>
      match updateCreditAssessment env st user tier incomeMin incomeMax level
      with Ok st' => st' | _ => st end
  | CallSetVerificationKey keyName keyData =>
      match setVerificationKey st keyName keyData
      with Ok st' => st' | _ => st end
  end.

(** The state after a sequence of transactions from deployment. *)
Definition run (txs : list (Env * Call)) : State :=
  fold_left execute txs init.

End Transactions.

(** The record a subject holds under last-write-wins: the arguments of
    the latest accepted update for that subject, stamped with the time of
    that transaction. *)
Fixpoint last_write (user : Z) (txs : list (Env * Call))
    (acc : option UserCreditInfo) : option UserCreditInfo :=
  match txs with
  | [] => acc
  | (env, CallUpdateCreditAssessment u tier incomeMin incomeMax level) :: txs' =>
      if (u =? user) && negb (u =? 0) && (1 <=? tier) && (tier <=? 5)
         && (incomeMin <=? incomeMax)
      then last_write user txs'
             (Some {| creditScoreTier := tier;
                      verifiedIncomeMin := incomeMin;
                      verifiedIncomeMax := incomeMax;
                      userVerificationLevel := level;
                      lastUpdated := block_timestamp env |})
      else last_write user txs' acc
  | _ :: txs' => last_write user txs' acc
  end.

(** The tier is between 1 and 5 and the income bounds are ordered. *)
Definition valid_info (info : UserCreditInfo) : Prop :=
  1 <= creditScoreTier info <= 5
  /\ verifiedIncomeMin info <= verifiedIncomeMax info.

(** [verificationKeys[keyName]] *)
Definition verificationKeys_at (st : State) (keyName : string) : list Z :=
  default [] (verificationKeys st !! keyName).

Definition getVerificationKey (st : State) (keyName : string)
    : result (list Z) :=
  require (0 <? Z.of_nat (String.length keyName)) else "Invalid key name" in
  let keyData := verificationKeys_at st keyName in
  require (0 <? Z.of_nat (length keyData))
    else "Verification key not found" in
  Ok keyData.

Definition version : string := "1.0.0".

(** Every stored verification record is a success at one of the three
    levels. *)
Definition valid_record (r : VerificationResult) : Prop :=
  isValid r = true /\ verificationLevel r <= 2.

End ZKCreditVerifier.

(** ** Verifier.sol *)

Module Verifier.

Inductive VerificationSystem :=
  Groth16 | PLONK | MARLIN | HALO2 | STARK | Bulletproofs.

Definition VerificationSystem_eqb (a b : VerificationSystem) : bool :=
  match a, b with
  | Groth16, Groth16 | PLONK, PLONK | MARLIN, MARLIN | HALO2, HALO2
  | STARK, STARK | Bulletproofs, Bulletproofs => true
  | _, _ => false
  end.

Record VerificationKey := {
  keyName : string;
  keyData : list Z;
  createdAt : Z;
  creator : Z;
  isActive : bool;
  system : VerificationSystem
}.

Record VerificationResult := {
  isValid : bool;
  proofId : Z;
  verifier : Z;
  gasUsed : Z;
  timestamp : Z;
  systemUsed : VerificationSystem;
  verificationMethod : string
}.

Inductive Event :=
  | ProofVerified (proofId verifier : Z) (isValid : bool)
      (system : VerificationSystem) (gasUsed : Z)
  | VerificationKeyAdded (keyName : string) (creator : Z)
      (system : VerificationSystem)
  | CircuitRegistered (circuitName verificationKey : string) (cost : Z)
  | VerificationSystemUpdated (system : VerificationSystem)
      (supported : bool).

(** The storage that [verifyProof], [addVerificationKey] and the
    constructor read and write, and the log of emitted events. *)
Record State := {
  owner : Z;
  operators : gmap Z bool;
  verificationKeys : gmap string VerificationKey;
  keyNames : list string;
  verificationResults : gmap Z VerificationResult;
  userVerificationHistory : gmap Z (list Z);
  circuitMappings : gmap string string;
  circuitCosts : gmap string Z;
  proofCounter : Z;
  lastProofId : Z;
  events : list Event
}.

Definition zeroVerificationKey : VerificationKey :=
  {| keyName := ""; keyData := []; createdAt := 0; creator := 0;
     isActive := false; system := Groth16 |}.

Definition zeroVerificationResult : VerificationResult :=
  {| isValid := false; proofId := 0; verifier := 0; gasUsed := 0;
     timestamp := 0; systemUsed := Groth16; verificationMethod := "" |}.

Definition operators_at (st : State) (a : Z) : bool :=
  default false (operators st !! a).
Definition verificationKeys_at (st : State) (name : string)
    : VerificationKey :=
  default zeroVerificationKey (verificationKeys st !! name).
Definition verificationResults_at (st : State) (id : Z)
    : VerificationResult :=
  default zeroVerificationResult (verificationResults st !! id).
Definition userVerificationHistory_at (st : State) (a : Z) : list Z :=
  default [] (userVerificationHistory st !! a).

(** [constructor()] with [_setupDefaultCircuits()] *)
Definition constructor (env : Env) : State :=
  {| owner := msg_sender env;
     operators := {[ msg_sender env := true ]};
     verificationKeys := ∅;
     keyNames := [];
     verificationResults := ∅;
     userVerificationHistory := ∅;
     circuitMappings :=
       <["identity_verification" := "identity_verification_key"]>
       (<["collateral_verification" := "collateral_verification_key"]>
       (<["credit_history" := "credit_history_key"]>
       (<["income_verification" := "income_verification_key"]> ∅)));
     circuitCosts :=
       <["identity_verification" := 800000000000000]>
       (<["collateral_verification" := 2000000000000000]>
       (<["credit_history" := 1500000000000000]>
       (<["income_verification" := 1000000000000000]> ∅)));
     proofCounter := 0;
     lastProofId := 0;
     events := [] |}.

(** [modifier onlyOperator] *)
Definition onlyOperator (env : Env) (st : State) : bool :=
  operators_at st (msg_sender env) || (msg_sender env =? owner st).

Definition addVerificationKey (env : Env) (st : State) (keyName : string)
    (keyData : list Z) (system : VerificationSystem) : result State :=
  require (onlyOperator env st)
    else "Only operators can perform this action" in
  require (0 <? Z.of_nat (String.length keyName)) else "Key name required" in
  require (0 <? Z.of_nat (length keyData)) else "Key data required" in
  let key :=
    {| keyName := keyName; keyData := keyData;
       createdAt := block_timestamp env; creator := msg_sender env;
       isActive := true; system := system |} in
  let keyNames' :=
    if Z.of_nat (String.length (Verifier.keyName (verificationKeys_at st keyName)))
       =? 0
    then keyNames st ++ [keyName] else keyNames st in
  Ok {| owner := owner st;
        operators := operators st;
        verificationKeys := <[keyName := key]> (verificationKeys st);
        keyNames := keyNames';
        verificationResults := verificationResults st;
        userVerificationHistory := userVerificationHistory st;
        circuitMappings := circuitMappings st;
        circuitCosts := circuitCosts st;
        proofCounter := proofCounter st;
        lastProofId := lastProofId st;
        events := events st ++
          [VerificationKeyAdded keyName (msg_sender env) system] |}.

Section WithKeccak.

(** [keccak256(abi.encodePacked(...))], a primitive of the platform, read
    as an unsigned integer. *)
Variable keccak256 : list abi_item -> Z.

Definition _performMockVerification (proof publicSignals : list Z)
    (system : VerificationSystem) : bool :=
  let proofHash :=
    keccak256 [abi_bytes proof; abi_uints publicSignals] mod 100 in
  let successThreshold :=
    match system with
    | Bulletproofs => 85
    | STARK => 92
    | _ => 90
    end in
  proofHash <? successThreshold.

Definition _verifyProofWithSystem (proof publicSignals : list Z)
    (key : VerificationKey) (system : VerificationSystem)
    : result (bool * string) :=
  require (VerificationSystem_eqb (Verifier.system key) system)
    else "System mismatch" in
  require (isActive key) else "Key inactive" in
  let isValid := _performMockVerification proof publicSignals system in
  let method :=
    match system with
    | Groth16 => "Groth16 Verification"
    | PLONK => "PLONK Verification"
    | MARLIN => "MARLIN Verification"
    | HALO2 => "HALO2 Verification"
    | STARK => "STARK Verification"
    | Bulletproofs => "Bulletproofs Verification"
    end in
  Ok (isValid, method).

(** [_generateVerificationId]: the counter is incremented first, and the
    new value is hashed with the proof, the signals, the block time and
    the caller.  The result is the identifier and the new counter. *)
Definition _generateVerificationId (env : Env) (st : State)
    (proof publicSignals : list Z) : result (Z * Z) :=
  let! proofCounter' := checked UINT256_MAX (proofCounter st + 1) in
  Ok (keccak256 [abi_bytes proof; abi_uints publicSignals;
                 abi_uint proofCounter'; abi_uint (block_timestamp env);
                 abi_address (msg_sender env)],
      proofCounter').

(** [verifyProof] with its modifiers [onlyOperator], [validProof] and
    [keyExists], in that order.  The call to the function spelled
    [_verifyproofWithSystem] is read as the call to
    [_verifyProofWithSystem], the only function of that name. *)
Definition verifyProof (env : Env) (st : State) (proof publicSignals : list Z)
    (verificationKeyName : string) (proofSystem : VerificationSystem)
    : result (Z * State) :=
  require (onlyOperator env st)
    else "Only operators can perform this action" in
  require (0 <? Z.of_nat (length proof)) else "Proof cannot be empty" in
  require (Z.of_nat (length proof) <=? 2000) else "Proof too large" in
  require (0 <? Z.of_nat (String.length
                   (keyName (verificationKeys_at st verificationKeyName))))
    else "Verification key not found" in
  require (isActive (verificationKeys_at st verificationKeyName))
    else "Verification key inactive" in
  let! idc := _generateVerificationId env st proof publicSignals in
  let '(verificationId, proofCounter') := idc in
  require (Verifier.proofId (verificationResults_at st verificationId) =? 0)
    else "Proof already verified" in
  let! vm := _verifyProofWithSystem proof publicSignals
               (verificationKeys_at st verificationKeyName) proofSystem in
  let '(isValid, method) := vm in
  let result :=
    {| isValid := isValid; proofId := verificationId;
       verifier := msg_sender env; gasUsed := gasleft env;
       timestamp := block_timestamp env; systemUsed := proofSystem;
       verificationMethod := method |} in
  Ok (verificationId,
      {| owner := owner st;
         operators := operators st;
         verificationKeys := verificationKeys st;
         keyNames := keyNames st;
         verificationResults :=
           <[verificationId := result]> (verificationResults st);
         userVerificationHistory :=
           <[msg_sender env :=
               userVerificationHistory_at st (msg_sender env)
               ++ [verificationId]]> (userVerificationHistory st);
         circuitMappings := circuitMappings st;
         circuitCosts := circuitCosts st;
         proofCounter := proofCounter';
         lastProofId := verificationId;
         events := events st ++
           [ProofVerified verificationId (msg_sender env) isValid proofSystem
              (gasleft env)] |}).

(** [getVerificationResult] *)
Definition getVerificationResult (st : State) (verificationId : Z)
    : VerificationResult :=
  verificationResults_at st verificationId.

End WithKeccak.

(** [modifier onlyOwner] *)
Definition onlyOwner (env : Env) (st : State) : bool :=
  msg_sender env =? owner st.

(** The stored key with its [isActive] field assigned. *)
Definition set_isActive (b : bool) (key : VerificationKey) : VerificationKey :=
  {| keyName := keyName key; keyData := keyData key;
     createdAt := createdAt key; creator := creator key;
     isActive := b; system := system key |}.

(** The storage with [verificationKeys] replaced. *)
Definition set_verificationKeys (keys : gmap string VerificationKey)
    (st : State) : State :=
  {| owner := owner st;
     operators := operators st;
     verificationKeys := keys;
     keyNames := keyNames st;
     verificationResults := verificationResults st;
     userVerificationHistory := userVerificationHistory st;
     circuitMappings := circuitMappings st;
     circuitCosts := circuitCosts st;
     proofCounter := proofCounter st;
     lastProofId := lastProofId st;
     events := events st |}.

Definition updateVerificationKeyStatus (env : Env) (st : State)
    (keyName : string) (isActive : bool) : result State :=
  require (onlyOperator env st)
    else "Only operators can perform this action" in
  require (0 <? Z.of_nat (String.length
                   (Verifier.keyName (verificationKeys_at st keyName))))
    else "Key not found" in
  Ok (set_verificationKeys
        (<[keyName := set_isActive isActive (verificationKeys_at st keyName)]>
           (verificationKeys st)) st).

Definition emergencyDeactivateKey (env : Env) (st : State)
    (keyName : string) : result State :=
  require (onlyOwner env st) else "Only owner can perform this action" in
  require (0 <? Z.of_nat (String.length
                   (Verifier.keyName (verificationKeys_at st keyName))))
    else "Key not found" in
  Ok (set_verificationKeys
        (<[keyName := set_isActive false (verificationKeys_at st keyName)]>
           (verificationKeys st)) st).

(** [getVerificationKey] *)
Definition getVerificationKey (st : State) (keyName : string)
    : VerificationKey :=
  verificationKeys_at st keyName.

(** [getVerificationKeyNames] *)
Definition getVerificationKeyNames (st : State) : list string := keyNames st.

(** [getUserVerificationHistory] *)
Definition getUserVerificationHistory (st : State) (user : Z) : list Z :=
  userVerificationHistory_at st user.

(** [getCircuitMapping]: a missing name reads as the empty string and
    the cost 0. *)
Definition getCircuitMapping (st : State) (circuitName : string)
    : string * Z :=
  (default "" (circuitMappings st !! circuitName),
   default 0 (circuitCosts st !! circuitName)).

(** [getLastProofId] *)
Definition getLastProofId (st : State) : Z := lastProofId st.

(** [batchCheckVerification]: the result array starts all false, and an
    entry is set when the record stored under the identifier carries that
    identifier. *)
Definition batchCheckVerification (st : State) (verificationIds : list Z)
    : list bool :=
  map (fun proofId =>
         if Verifier.proofId (verificationResults_at st proofId) =? proofId
         then isValid (verificationResults_at st proofId)
         else false)
      verificationIds.

Definition _getActiveSystems : list VerificationSystem :=
  [Groth16; PLONK; MARLIN; HALO2; STARK; Bulletproofs].

(** [getContractStats]: [(totalKeys, totalProofs, totalBatches,
    activeSystems)]. *)
Definition getContractStats (st : State)
    : Z * Z * Z * list VerificationSystem :=
  (Z.of_nat (length (keyNames st)), proofCounter st, 0, _getActiveSystems).

Definition addCircuitMapping (env : Env) (st : State)
    (circuitName verificationKeyName : string) (cost : Z) : result State :=
  require (onlyOperator env st)
    else "Only operators can perform this action" in
  require (0 <? Z.of_nat (String.length circuitName))
    else "Circuit name required" in
  require (0 <? Z.of_nat (String.length verificationKeyName))
    else "Verification key name required" in
  require (0 <? cost) else "Cost must be positive" in
  require (0 <? Z.of_nat (String.length
                   (keyName (verificationKeys_at st verificationKeyName))))
    else "Verification key not found" in
  Ok {| owner := owner st;
        operators := operators st;
        verificationKeys := verificationKeys st;
        keyNames := keyNames st;
        verificationResults := verificationResults st;
        userVerificationHistory := userVerificationHistory st;
        circuitMappings :=
          <[circuitName := verificationKeyName]> (circuitMappings st);
        circuitCosts := <[circuitName := cost]> (circuitCosts st);
        proofCounter := proofCounter st;
        lastProofId := lastProofId st;
        events := events st ++
          [CircuitRegistered circuitName verificationKeyName cost] |}.

(** [registerVerificationSystem]: the body emits the event and writes
    nothing. *)
Definition registerVerificationSystem (env : Env) (st : State)
    (system : VerificationSystem) (supported : bool) : result State :=
  require (onlyOwner env st) else "Only owner can perform this action" in
  Ok {| owner := owner st;
        operators := operators st;
        verificationKeys := verificationKeys st;
        keyNames := keyNames st;
        verificationResults := verificationResults st;
        userVerificationHistory := userVerificationHistory st;
        circuitMappings := circuitMappings st;
        circuitCosts := circuitCosts st;
        proofCounter := proofCounter st;
        lastProofId := lastProofId st;
        events := events st ++ [VerificationSystemUpdated system supported] |}.

(** A transaction on the contract: one of the state-changing entry points
    that can be read as they are written.  Two entry points are left
    out: [setOperator], whose modifier [validAddress] is declared
    nowhere, and [verifyBatchProofs], whose body assigns to the
    undeclared [verificationId] and reads the undeclared [proofId].
    [setOperator] writes [operators] and [verifyBatchProofs] increments
    [proofCounter] and writes [batchVerificationResults]; the invariants
    proved over [run] speak of the keys, the key names, the verification
    results and the histories, which neither of them writes. *)
Inductive Call :=
  | CallVerifyProof (proof publicSignals : list Z)
      (verificationKeyName : string) (proofSystem : VerificationSystem)
  | CallAddVerificationKey (keyName : string) (keyData : list Z)
      (system : VerificationSystem)
  | CallUpdateVerificationKeyStatus (keyName : string) (isActive : bool)
  | CallEmergencyDeactivateKey (keyName : string)
  | CallAddCircuitMapping (circuitName verificationKeyName : string)
      (cost : Z)
  | CallRegisterVerificationSystem (system : VerificationSystem)
      (supported : bool).

Section Transactions.

Variable keccak256 : list abi_item -> Z.

(** A transaction that reverts or panics changes nothing. *)
Definition execute (st : State) (tx : Env * Call) : State :=
  let '(env, call) := tx in
  match call with
  | CallVerifyProof proof publicSignals name proofSystem =>
      match verifyProof keccak256 env st proof publicSignals name proofSystem
      with Ok (_, st') => st' | _ => st end
  | CallAddVerificationKey name data sys =>
      match addVerificationKey env st name data sys
      with Ok st' => st' | _ => st end
  | CallUpdateVerificationKeyStatus name b =>
      match updateVerificationKeyStatus env st name b
      with Ok st' => st' | _ => st end
  | CallEmergencyDeactivateKey name =>
      match emergencyDeactivateKey env st name
      with Ok st' => st' | _ => st end
  | CallAddCircuitMapping circuitName name cost =>
      match addCircuitMapping env st circuitName name cost
      with Ok st' => st' | _ => st end
  | CallRegisterVerificationSystem sys supported =>
      match registerVerificationSystem env st sys supported
      with Ok st' => st' | _ => st end
  end.

(** The state after deployment in [deploy] and a sequence of these
    transactions. *)
Definition run (deploy : Env) (txs : list (Env * Call)) : State :=
  fold_left execute txs (constructor deploy).

End Transactions.

(** The keys are stored under their own non-empty name, and [keyNames]
    lists the stored names, each once. *)
Definition keys_consistent (st : State) : Prop :=
  (forall name key, verificationKeys st !! name = Some key ->
     keyName key = name /\ name <> "")
  /\ NoDup (keyNames st)
  /\ (forall name, name ∈ keyNames st <-> is_Some (verificationKeys st !! name)).

(** Every record is stored under its own identifier, and every identifier
    in a history has a record. *)
Definition results_consistent (st : State) : Prop :=
  (forall id r, verificationResults st !! id = Some r -> proofId r = id)
  /\ (forall a ids id, userVerificationHistory st !! a = Some ids ->
        id ∈ ids -> is_Some (verificationResults st !! id)).

End Verifier.

(** ** ZKProofService.ts *)

(** SHA-256 over bytes, and its digest in hexadecimal. *)
Module Sha256.

Definition mask32 : Z := 2 ^ 32 - 1.
Definition add32 (a b : Z) : Z := Z.land (a + b) mask32.
Definition rotr32 (x n : Z) : Z :=
  Z.land (Z.lor (Z.shiftr x n) (Z.shiftl x (32 - n))) mask32.

(** The primes among [n], [n + 1], ..., found by trial division by the
    primes found so far. *)
Fixpoint primes_from (count : nat) (n : Z) (found : list Z) : list Z :=
  match count with
  | O => found
  | S count' =>
      if forallb (fun d => negb (n mod d =? 0)) found
      then primes_from count' (n + 1) (found ++ [n])
      else primes_from count' (n + 1) found
  end.

(** The first 64 primes: those from 2 to 311. *)
Definition primes : list Z := Eval vm_compute in primes_from 310 2 [].

(** The largest [r + d] with [d < 2 ^ bits] and [(r + d) ^ k <= n]. *)
Fixpoint root_below (k n : Z) (bits : nat) (r : Z) : Z :=
  match bits with
  | O => r
  | S bits' =>
      let r' := r + 2 ^ Z.of_nat bits' in
      root_below k n bits' (if r' ^ k <=? n then r' else r)
  end.

(** The first 32 bits of the fractional part of the [k]-th root of a
    prime. *)
Definition fractional_bits (k prime : Z) : Z :=
  root_below k (prime * 2 ^ (32 * k)) 40 0 mod 2 ^ 32.

(** The initial hash value, from the square roots of the first 8 primes,
    and the round constants, from the cube roots of the first 64. *)
Definition initial_hash : list Z :=
  Eval vm_compute in map (fractional_bits 2) (firstn 8 primes).

Definition round_constants : list Z :=
  Eval vm_compute in map (fractional_bits 3) primes.

Definition be_value (bs : list Z) : Z :=
  fold_left (fun acc b => acc * 256 + b) bs 0.

Fixpoint be_bytes (n : nat) (v : Z) : list Z :=
  match n with
  | O => []
  | S n' => (v / 256 ^ Z.of_nat n') mod 256 :: be_bytes n' v
  end.

Fixpoint words_of (n : nat) (bs : list Z) : list Z :=
  match n with
  | O => []
  | S n' => be_value (firstn 4 bs) :: words_of n' (skipn 4 bs)
  end.

(** The message schedule: [n] more words after those of [W]. *)
Fixpoint schedule (n : nat) (W : list Z) : list Z :=
  match n with
  | O => W
  | S n' =>
      let t := length W in
      let w2 := nth (t - 2) W 0 in
      let w7 := nth (t - 7) W 0 in
      let w15 := nth (t - 15) W 0 in
      let w16 := nth (t - 16) W 0 in
      let s0 := Z.lxor (Z.lxor (rotr32 w15 7) (rotr32 w15 18))
                  (Z.shiftr w15 3) in
      let s1 := Z.lxor (Z.lxor (rotr32 w2 17) (rotr32 w2 19))
                  (Z.shiftr w2 10) in
      schedule n' (W ++ [add32 (add32 (add32 s1 w7) s0) w16])
  end.

Definition compression_round (v : list Z) (kw : Z * Z) : list Z :=
  match v with
  | [a; b; c; d; e; f; g; h] =>
      let S1 := Z.lxor (Z.lxor (rotr32 e 6) (rotr32 e 11)) (rotr32 e 25) in
      let ch := Z.lxor (Z.land e f) (Z.land (Z.lxor e mask32) g) in
      let t1 := add32 (add32 (add32 (add32 h S1) ch) (fst kw)) (snd kw) in
      let S0 := Z.lxor (Z.lxor (rotr32 a 2) (rotr32 a 13)) (rotr32 a 22) in
      let maj := Z.lxor (Z.lxor (Z.land a b) (Z.land a c)) (Z.land b c) in
      let t2 := add32 S0 maj in
      [add32 t1 t2; a; b; c; add32 d t1; e; f; g]
  | _ => v
  end.

Definition compress (H : list Z) (block : list Z) : list Z :=
  let W := schedule 48 (words_of 16 block) in
  let v := fold_left compression_round (combine round_constants W) H in
  map (fun '(x, y) => add32 x y) (combine H v).

Definition pad (len : nat) : list Z :=
  0x80 :: repeat 0 ((119 - len mod 64) mod 64)%nat
  ++ be_bytes 8 (8 * Z.of_nat len).

Fixpoint blocks (n : nat) (H : list Z) (bs : list Z) : list Z :=
  match n with
  | O => H
  | S n' =>
      match bs with
      | [] => H
      | _ => blocks n' (compress H (firstn 64 bs)) (skipn 64 bs)
      end
  end.

Definition sha256 (msg : list Z) : list Z :=
  let padded := msg ++ pad (length msg) in
  concat (map (be_bytes 4) (blocks (length padded) initial_hash padded)).

Definition hex_digit (d : Z) : Ascii.ascii :=
  Ascii.ascii_of_nat (Z.to_nat (if d <? 10 then 48 + d else 87 + d)).

Fixpoint hex_of_bytes (bs : list Z) : string :=
  match bs with
  | [] => ""
  | b :: bs' => String (hex_digit (b / 16)) (String (hex_digit (b mod 16))
                  (hex_of_bytes bs'))
  end.

Definition bytes_of_string (s : string) : list Z :=
  map (fun a => Z.of_nat (Ascii.nat_of_ascii a)) (String.list_ascii_of_string s).

(** [crypto.createHash('sha256').update(data).digest('hex')] *)
Definition sha256_hex (data : string) : string :=
  hex_of_bytes (sha256 (bytes_of_string data)).

End Sha256.

Module ZKProofService.

Inductive ZKProofType :=
  | INCOME_VERIFICATION
  | CREDIT_HISTORY_VERIFICATION
  | COLLATERAL_VERIFICATION
  | COMPLIANCE_VERIFICATION
  | IDENTITY_VERIFICATION
  | PAYMENT_PRIVACY
  | WORKFLOW_COMPLETED.

(** The string of each member of the enumeration. *)
Definition ZKProofType_value (t : ZKProofType) : string :=
  match t with
  | INCOME_VERIFICATION => "income_verification"
  | CREDIT_HISTORY_VERIFICATION => "credit_history_verification"
  | COLLATERAL_VERIFICATION => "collateral_verification"
  | COMPLIANCE_VERIFICATION => "compliance_verification"
  | IDENTITY_VERIFICATION => "identity_verification"
  | PAYMENT_PRIVACY => "payment_privacy"
  | WORKFLOW_COMPLETED => "workflow_completed"
  end.

(** A promise that resolves with a value or rejects with the message of
    the error thrown. *)
Inductive outcome (A : Type) : Type :=
  | Resolved (a : A)
  | Thrown (message : string).

Arguments Resolved {A} a.
Arguments Thrown {A} message.

Record CircuitData := {
  wasmPath : string;
  zkeyPath : string;
  verificationKeyPath : string
}.

(** [path.join] of a directory and a file name. *)
Definition join (dir file : string) : string := dir +:+ "/" +:+ file.

(** [this.circuits.get(proofType)] after [initializeCircuits()]. *)
Definition circuits (t : ZKProofType) : option CircuitData :=
  let circuitPath := "zk-circuits/complied" in
  match t with
  | INCOME_VERIFICATION =>
      Some {| wasmPath := join circuitPath "income_verifier.wasm";
              zkeyPath := join circuitPath "income_verifier_final.zkey";
              verificationKeyPath :=
                join circuitPath "income_verification_key.json" |}
  | COLLATERAL_VERIFICATION =>
      Some {| wasmPath := join circuitPath "collateral_verifier.wasm";
              zkeyPath := join circuitPath "collateral_verifier_final.zkey";
              verificationKeyPath :=
                join circuitPath "collateral_verification_key.json" |}
  | CREDIT_HISTORY_VERIFICATION =>
      Some {| wasmPath := join circuitPath "credit_history_verifier.wasm";
              zkeyPath :=
                join circuitPath "credit_history_verifier_final.zkey";
              verificationKeyPath :=
                join circuitPath "credit_history_verification_key.json" |}
  | IDENTITY_VERIFICATION =>
      Some {| wasmPath := join circuitPath "identity_verifier.wasm";
              zkeyPath := join circuitPath "identity_verifier_final.zkey";
              verificationKeyPath :=
                join circuitPath "identity_verification_key.json" |}
  | _ => None
  end.

(** The inputs of a proof: an object whose properties, none of them
    named by an array index, hold strings, as the declared fields of
    [ZKInputs] do; they are listed in the order of their insertion. *)
Definition ZKInputs := list (string * string).

(** [inputs[key]] *)
Fixpoint property (key : string) (inputs : ZKInputs) : option string :=
  match inputs with
  | [] => None
  | (k, v) :: rest => if String.eqb k key then Some v else property key rest
  end.

(** A character inside a JSON string: the quote and the backslash are
    escaped, a control character is written by its short escape or by
    its code. *)
Definition JSON_quote_char (a : Ascii.ascii) : string :=
  let n := Z.of_nat (Ascii.nat_of_ascii a) in
  let backslash := String "092"%char "" in
  if n =? 34 then backslash +:+ String "034"%char ""
  else if n =? 92 then backslash +:+ backslash
  else if n =? 8 then backslash +:+ "b"
  else if n =? 9 then backslash +:+ "t"
  else if n =? 10 then backslash +:+ "n"
  else if n =? 12 then backslash +:+ "f"
  else if n =? 13 then backslash +:+ "r"
  else if n <? 32 then
    backslash +:+ "u00"
      +:+ String (Sha256.hex_digit (n / 16))
            (String (Sha256.hex_digit (n mod 16)) "")
  else String a "".

Fixpoint JSON_quote_chars (s : string) : string :=
  match s with
  | EmptyString => ""
  | String a rest => JSON_quote_char a +:+ JSON_quote_chars rest
  end.

Definition JSON_quote (s : string) : string :=
  String "034"%char "" +:+ JSON_quote_chars s +:+ String "034"%char "".

Fixpoint JSON_members (inputs : ZKInputs) : string :=
  match inputs with
  | [] => ""
  | [(k, v)] => JSON_quote k +:+ ":" +:+ JSON_quote v
  | (k, v) :: rest =>
      JSON_quote k +:+ ":" +:+ JSON_quote v +:+ "," +:+ JSON_members rest
  end.

(** [JSON.stringify(inputs)] *)
Definition JSON_stringify (inputs : ZKInputs) : string :=
  "{" +:+ JSON_members inputs +:+ "}".

(** The field [proof] of [ProofGenerationData] is [generated] here, its
    field [publicSignals] is [signals]. *)
Record ZKProof := {
  proofId : string;
  proof : string;
  publicSignals : list string;
  verified : bool;
  timestamp : Z;
  proofType : ZKProofType;
  verificationKeyId : string
}.

Record ProofGenerationData := {
  generated : ZKProof;
  signals : list string;
  circuitType : ZKProofType
}.

(** What one call draws from its environment: the simulated generation
    time, the identifier of [uuidv4()], the digits of [randomHex(length)]
    and the clock. *)
Record Draws := {
  generationTime : Z;
  uuidv4 : string;
  randomHex : nat -> string;
  Date_now : Z
}.

Definition hashData (data : string) : string := Sha256.sha256_hex data.

(** The hash of the inputs is computed and not used. *)
Definition generateMockProof (draws : Draws) (inputs : ZKInputs)
    (proofType : ZKProofType) : string :=
  let proofHash :=
    hashData (JSON_stringify inputs +:+ ZKProofType_value proofType) in
  randomHex draws 128.

Definition generatePublicSignals (inputs : ZKInputs)
    (proofType : ZKProofType) : list string :=
  let inputsData := JSON_stringify inputs in
  ["0x" +:+ String.substring 0 64 (hashData (inputsData +:+ "_signal1"));
   "0x" +:+ String.substring 0 64 (hashData (inputsData +:+ "_signal2"));
   "0x" +:+ String.substring 0 64 (hashData (inputsData +:+ "_signal3"))].

(** [toLowerCase] on the letters A to Z. *)
Definition toLowerCase_char (a : Ascii.ascii) : Ascii.ascii :=
  let n := Ascii.nat_of_ascii a in
  if ((65 <=? n) && (n <=? 90))%nat then Ascii.ascii_of_nat (n + 32) else a.

Fixpoint toLowerCase (s : string) : string :=
  match s with
  | EmptyString => ""
  | String a rest => String (toLowerCase_char a) (toLowerCase rest)
  end.

(** [generateProof]: the one test is that the proof type has circuit
    data; ['0x' + proof || '0x0'] is the concatenation, which is never
    empty. *)
Definition generateProof (draws : Draws) (inputs : ZKInputs)
    (proofType : ZKProofType) : outcome ProofGenerationData :=
  match circuits proofType with
  | None =>
      Thrown ("Failed to generate ZK proof: Error: Unknown proof type: "
              +:+ ZKProofType_value proofType)
  | Some circuitData =>
      let proofId := uuidv4 draws in
      let proof := generateMockProof draws inputs proofType in
      let publicSignals := generatePublicSignals inputs proofType in
      let zkProof :=
        {| proofId := proofId;
           proof := "0x" +:+ proof;
           publicSignals := publicSignals;
           verified := true;
           timestamp := Date_now draws;
           proofType := proofType;
           verificationKeyId :=
             toLowerCase (ZKProofType_value proofType) +:+ "_key" |} in
      Resolved {| generated := zkProof; signals := publicSignals;
                  circuitType := proofType |}
  end.

End ZKProofService.

(** ** Keccak-256 and packed encoding *)

(** The hash function of the platform, over bytes: the permutation
    Keccak-f[1600] in a sponge of rate 136 bytes with the padding of the
    original Keccak submission. *)
Module Keccak.

Definition mask64 : Z := 2 ^ 64 - 1.

Definition rotl64 (x : Z) (n : Z) : Z :=
  Z.land (Z.lor (Z.shiftl x n) (Z.shiftr x (64 - n))) mask64.

(** The lane at column [x] and row [y] of a state of 25 lanes. *)
Definition lane (A : list Z) (x y : nat) : Z :=
  nth (x mod 5 + 5 * (y mod 5)) A 0.

Definition rotation_offsets : list Z :=
  [0; 1; 62; 28; 27; 36; 44; 6; 55; 20; 3; 10; 43; 25; 39;
   41; 45; 15; 21; 8; 18; 2; 61; 56; 14].

Definition round_constants : list Z :=
  [0x0000000000000001; 0x0000000000008082; 0x800000000000808A;
   0x8000000080008000; 0x000000000000808B; 0x0000000080000001;
   0x8000000080008081; 0x8000000000008009; 0x000000000000008A;
   0x0000000000000088; 0x0000000080008009; 0x000000008000000A;
   0x000000008000808B; 0x800000000000008B; 0x8000000000008089;
   0x8000000000008003; 0x8000000000008002; 0x8000000000000080;
   0x000000000000800A; 0x800000008000000A; 0x8000000080008081;
   0x8000000000008080; 0x0000000080000001; 0x8000000080008008].

Definition positions : list (nat * nat) :=
  map (fun k => (k mod 5, k / 5)%nat) (seq 0 25).

Definition theta (A : list Z) : list Z :=
  let C := map (fun x => Z.lxor (Z.lxor (Z.lxor (Z.lxor (lane A x 0)
             (lane A x 1)) (lane A x 2)) (lane A x 3)) (lane A x 4))
             (seq 0 5) in
  let D := map (fun x => Z.lxor (nth ((x + 4) mod 5) C 0)
                           (rotl64 (nth ((x + 1) mod 5) C 0) 1))
             (seq 0 5) in
  map (fun '(x, y) => Z.lxor (lane A x y) (nth x D 0)) positions.

Definition rho_pi (A : list Z) : list Z :=
  map (fun '(x, y) =>
         let sx := ((x + 3 * y) mod 5)%nat in
         rotl64 (lane A sx x) (nth (sx + 5 * x) rotation_offsets 0))
      positions.

Definition chi (B : list Z) : list Z :=
  map (fun '(x, y) =>
         Z.lxor (lane B x y)
           (Z.land (Z.lxor (lane B (x + 1) y) mask64) (lane B (x + 2) y)))
      positions.

Definition iota (rc : Z) (A : list Z) : list Z :=
  match A with
  | a :: rest => Z.lxor a rc :: rest
  | [] => []
  end.

Definition keccak_round (A : list Z) (rc : Z) : list Z :=
  iota rc (chi (rho_pi (theta A))).

Definition keccak_f (A : list Z) : list Z :=
  fold_left keccak_round round_constants A.

Definition rate : nat := 136.

(** A lane from its bytes, the least significant first. *)
Fixpoint bytes_to_lane (bs : list Z) : Z :=
  match bs with
  | [] => 0
  | b :: bs' => b + 256 * bytes_to_lane bs'
  end.

Fixpoint lanes_of (n : nat) (bs : list Z) : list Z :=
  match n with
  | O => []
  | S n' => bytes_to_lane (firstn 8 bs) :: lanes_of n' (skipn 8 bs)
  end.

Definition absorb_block (A : list Z) (block : list Z) : list Z :=
  let ls := lanes_of 17 block in
  keccak_f (map (fun k => Z.lxor (nth k A 0) (nth k ls 0)) (seq 0 25)).

(** The padding: a byte 0x01, zeros, and a byte 0x80, to a multiple of
    the rate. *)
Definition pad (len : nat) : list Z :=
  let q := (rate - len mod rate)%nat in
  match q with
  | 1%nat => [0x81]
  | _ => 0x01 :: repeat 0 (q - 2) ++ [0x80]
  end.

Fixpoint absorb (n : nat) (A : list Z) (bs : list Z) : list Z :=
  match n with
  | O => A
  | S n' =>
      match bs with
      | [] => A
      | _ => absorb n' (absorb_block A (firstn rate bs)) (skipn rate bs)
      end
  end.

Fixpoint lane_to_bytes (n : nat) (l : Z) : list Z :=
  match n with
  | O => []
  | S n' => l mod 256 :: lane_to_bytes n' (l / 256)
  end.

(** The 32 bytes of the digest of a message of bytes. *)
Definition keccak256 (msg : list Z) : list Z :=
  let padded := msg ++ pad (length msg) in
  let A := absorb (length padded) (repeat 0 25) padded in
  concat (map (lane_to_bytes 8) (firstn 4 A)).

(** The unsigned integer that a sequence of bytes denotes, the most
    significant first, and the [n] bytes of an unsigned integer. *)
Definition be_value (bs : list Z) : Z :=
  fold_left (fun acc b => acc * 256 + b) bs 0.

Fixpoint be_bytes (n : nat) (v : Z) : list Z :=
  match n with
  | O => []
  | S n' => (v / 256 ^ Z.of_nat n') mod 256 :: be_bytes n' v
  end.

(** [abi.encodePacked]: an unsigned integer takes 32 bytes, the elements
    of an array 32 bytes each, an address 20 bytes, bytes and strings
    their own bytes. *)
Definition encodePacked_item (it : abi_item) : list Z :=
  match it with
  | abi_uint v => be_bytes 32 v
  | abi_uints vs => concat (map (be_bytes 32) vs)
  | abi_bytes bs => bs
  | abi_string s =>
      map (fun a => Z.of_nat (Ascii.nat_of_ascii a))
        (String.list_ascii_of_string s)
  | abi_address a => be_bytes 20 a
  end.

Definition encodePacked (items : list abi_item) : list Z :=
  concat (map encodePacked_item items).

End Keccak.

(** [keccak256(abi.encodePacked(...))] read as an unsigned integer: the
    digest function on which the contracts are run on concrete
    transactions.  The theorems about the contracts hold for every digest
    function. *)
Module ExampleDigest.

Definition digest (items : list abi_item) : Z :=
  Keccak.be_value (Keccak.keccak256 (Keccak.encodePacked items)).

(** A stand-in for the circuit hash, used to run the Merkle circuits. *)
Definition circuit_hash (inputs : list F) : F := fold_left fadd inputs 7.

End ExampleDigest.

(** ** Worked inputs *)

Module Examples.

(** The income scenario of the specification. *)
Definition income_scenario : Income.Inputs :=
  {| Income.minIncome := 15000; Income.maxIncome := 80000;
     Income.actualIncome := 45000 |}.

(** A credit score on the lower bound of the accepted range. *)
Definition credit_scenario : CreditHistory.Inputs :=
  {| CreditHistory.creditScoreMin := 700;
     CreditHistory.creditScoreMax := 850;
     CreditHistory.minHistoryLength := 12;
     CreditHistory.creditScore := 700;
     CreditHistory.historyLength := 24;
     CreditHistory.defaultCount := 0;
     CreditHistory.recentLatePayments := 1 |}.

(** The inputs of a collateral proof for a loan of amount zero, and what
    one call of the proof service draws. *)
Definition zero_loan_inputs : ZKProofService.ZKInputs :=
  [("value", "75000"); ("proof", "0xabc"); ("loanAmount", "0");
   ("collateralRatio", "150")].

Definition service_draws : ZKProofService.Draws :=
  {| ZKProofService.generationTime := 1500;
     ZKProofService.uuidv4 := "9b2f6c1e-5d3a-4f7b-8e21-0c4d5a6b7c8d";
     ZKProofService.randomHex :=
       fun n => String.concat "" (repeat "c" n);
     ZKProofService.Date_now := 1700000000000 |}.

Section MerkleInputs.

Variable Poseidon : list F -> F.

(** A tree of depth one over the leaves 1 and 2: the honest path of leaf
    index 0 is the sibling 2 with direction 0. *)
Definition honest_entry : Merkle.BatchEntry :=
  {| Merkle.batchRoot := Poseidon [1; 2]; Merkle.batchLeaf := 1;
     Merkle.batchPath := [2]; Merkle.batchIndex := [0] |}.

(** The same proof with the sibling replaced. *)
Definition corrupted_entry : Merkle.BatchEntry :=
  {| Merkle.batchRoot := Poseidon [1; 2]; Merkle.batchLeaf := 1;
     Merkle.batchPath := [3]; Merkle.batchIndex := [0] |}.

End MerkleInputs.

(** Depth zero: a proof is the leaf alone, valid when it is the root. *)
Definition leaf_entry (root leaf : F) : Merkle.BatchEntry :=
  {| Merkle.batchRoot := root; Merkle.batchLeaf := leaf;
     Merkle.batchPath := []; Merkle.batchIndex := [] |}.

(** Transactions on the contracts. *)
Definition env1 : Env :=
  {| block_timestamp := 1700000000; msg_sender := 11; gasleft := 100000 |}.
Definition env2 : Env :=
  {| block_timestamp := 1700000012; msg_sender := 11; gasleft := 90000 |}.

(** A proof that the mock check of [ZKCreditVerifier] rejects: with the
    signals and the key name below, the digest is 93 modulo 100. *)
Definition rejected_proof : list Z := [3].
Definition income_signals : list Z := [15000; 80000; 45000].

(** Two updates of the same subject. *)
Definition two_updates : list (Env * ZKCreditVerifier.Call) :=
  [(env1, ZKCreditVerifier.CallUpdateCreditAssessment 42 2 15000 80000
            ZKCreditVerifier.Enhanced);
   (env2, ZKCreditVerifier.CallUpdateCreditAssessment 42 3 20000 90000
            ZKCreditVerifier.Premium)].

(** The [Verifier] contract deployed by the account 11, with one key
    added. *)
Definition verifier_with_key : Verifier.State :=
  match Verifier.addVerificationKey env1 (Verifier.constructor env1)
          "income_verification_key" [1; 2; 3] Verifier.Groth16 with
  | Ok st => st
  | _ => Verifier.constructor env1
  end.

(** A proof that the mock check of [ZKCreditVerifier] accepts (the
    digest is 62 modulo 100), verified once for the identifier 77. *)
Definition accepted_proof : list Z := [1].

Definition one_verification : list (Env * ZKCreditVerifier.Call) :=
  [(env1, ZKCreditVerifier.CallVerifyProof 77 accepted_proof income_signals
            "income_verification_key" 1)].

(** The same verification requested twice, the second time in the
    environment [env]. *)
Definition first_call : result (Z * Verifier.State) :=
  Verifier.verifyProof ExampleDigest.digest env1 verifier_with_key
    [1; 2; 3] income_signals "income_verification_key" Verifier.Groth16.

Definition first_id : Z :=
  match first_call with Ok (id, _) => id | _ => 0 end.

Definition after_first : Verifier.State :=
  match first_call with Ok (_, st) => st | _ => verifier_with_key end.

Definition second_call (env : Env) : result (Z * Verifier.State) :=
  Verifier.verifyProof ExampleDigest.digest env after_first
    [1; 2; 3] income_signals "income_verification_key" Verifier.Groth16.

Definition second_id (env : Env) : Z :=
  match second_call env with Ok (id, _) => id | _ => 0 end.

Definition after_second (env : Env) : Verifier.State :=
  match second_call env with Ok (_, st) => st | _ => after_first end.

(** The contract after the first verification, with the counter set
    back: the next identifier is the one that already has a record. *)
Definition replayed : Verifier.State :=
  {| Verifier.owner := Verifier.owner after_first;
     Verifier.operators := Verifier.operators after_first;
     Verifier.verificationKeys := Verifier.verificationKeys after_first;
     Verifier.keyNames := Verifier.keyNames after_first;
     Verifier.verificationResults := Verifier.verificationResults after_first;
     Verifier.userVerificationHistory :=
       Verifier.userVerificationHistory after_first;
     Verifier.circuitMappings := Verifier.circuitMappings after_first;
     Verifier.circuitCosts := Verifier.circuitCosts after_first;
     Verifier.proofCounter := 0;
     Verifier.lastProofId := Verifier.lastProofId after_first;
     Verifier.events := Verifier.events after_first |}.

(** The contract after a circuit was mapped to the key. *)
Definition verifier_with_circuit : Verifier.State :=
  match Verifier.addCircuitMapping env1 verifier_with_key
          "income_range" "income_verification_key" 5 with
  | Ok st => st
  | _ => verifier_with_key
  end.

(** An account that is neither the owner nor an operator. *)
Definition stranger : Env :=
  {| block_timestamp := 1700000024; msg_sender := 99; gasleft := 80000 |}.

(** The contract after the owner has deactivated the key. *)
Definition verifier_deactivated : Verifier.State :=
  match Verifier.emergencyDeactivateKey env1 verifier_with_key
          "income_verification_key" with
  | Ok st => st
  | _ => verifier_with_key
  end.

End Examples.

(** * Properties *)

(** ** Gadgets and constraints *)

Section GadgetFacts.

Lemma constrain_Some (a b : F) : constrain a b = Some tt <-> a = b.
Proof.
  unfold constrain. destruct (Z.eqb_spec a b); split; congruence.
Qed.

Lemma constrain_None (a b : F) : constrain a b = None <-> a <> b.
Proof.
  unfold constrain. destruct (Z.eqb_spec a b); split; congruence.
Qed.

Lemma constrain_refl (a : F) : constrain a a = Some tt.
Proof. now apply constrain_Some. Qed.

Lemma constrain_0_1 : constrain 0 1 = None.
Proof. reflexivity. Qed.

Lemma GreaterEqThan_spec (n : Z) (a b : F) :
  GreaterEqThan n a b = if decide (b <= a) then 1 else 0.
Proof.
  unfold GreaterEqThan. destruct (Z.leb_spec b a); case_decide; lia.
Qed.

Lemma LessEqThan_spec (n : Z) (a b : F) :
  LessEqThan n a b = if decide (a <= b) then 1 else 0.
Proof.
  unfold LessEqThan. destruct (Z.leb_spec a b); case_decide; lia.
Qed.

Lemma IsZero_spec (a : F) : IsZero a = if decide (a = 0) then 1 else 0.
Proof.
  unfold IsZero. destruct (Z.eqb_spec a 0); case_decide; congruence.
Qed.

Lemma finv_0 : finv 0 = 0.
Proof. vm_compute. reflexivity. Qed.

Lemma fdiv_0_r (a : F) : fdiv a 0 = 0.
Proof.
  unfold fdiv, fmul. rewrite finv_0, Z.mul_0_r. reflexivity.
Qed.

End GadgetFacts.

(** ** Income range proof *)

Section IncomeProperties.

Import Income.

(** Whenever the income circuit has a witness, its output is the private
    income itself. *)
Lemma IncomeVerifier_commitment (i : Inputs) (c : F) :
  IncomeVerifier i = Some c -> c = actualIncome i.
Proof.
  unfold IncomeVerifier. intros H.
  repeat match type of H with
         | match ?c with _ => _ end = _ => destruct c; [|discriminate]
         end.
  congruence.
Qed.

(** The income circuit accepts exactly the incomes within the bounds,
    when the bounds are ordered and not negative. *)
Lemma IncomeVerifier_accepts (i : Inputs) :
  0 <= minIncome i <= actualIncome i -> actualIncome i <= maxIncome i ->
  IncomeVerifier i = Some (actualIncome i).
Proof.
  intros H1 H2. unfold IncomeVerifier.
  rewrite !GreaterEqThan_spec, !LessEqThan_spec.
  repeat (case_decide; [|lia]). reflexivity.
Qed.

(** C1: in the income scenario (bounds 15000 and 80000, income 45000) the
    circuit has a witness, and its public signal vector is
    [45000; 15000; 80000]: the output [commitment] is the private income
    itself, so the public signals contain it. *)
Theorem income_public_signals_reveal_income :
  Income.publicSignals Examples.income_scenario = Some [45000; 15000; 80000]
  /\ In (actualIncome Examples.income_scenario) [45000; 15000; 80000].
Proof.
  split; [reflexivity | left; reflexivity].
Qed.

(** For every income within the bounds, the first public signal is the
    income. *)
Lemma publicSignals_head (i : Inputs) :
  0 <= minIncome i <= actualIncome i -> actualIncome i <= maxIncome i ->
  Income.publicSignals i = Some [actualIncome i; minIncome i; maxIncome i].
Proof.
  intros H1 H2. unfold Income.publicSignals.
  rewrite IncomeVerifier_accepts by assumption. reflexivity.
Qed.

End IncomeProperties.

(** ** Credit history proof *)

Section CreditHistoryProperties.

Import CreditHistory.

(** The circuit as one test on its inputs. *)
Lemma CreditHistoryVerifier_spec (i : Inputs) :
  CreditHistoryVerifier i =
  if decide (creditScoreMin i <= creditScore i
             /\ creditScore i <= creditScoreMax i
             /\ minHistoryLength i <= historyLength i
             /\ defaultCount i = 0
             /\ recentLatePayments i <= 3
             /\ 0 <= creditScore i /\ 0 <= historyLength i
             /\ creditScore i <= 850)
  then Some {| creditRating := MultiDivision (creditScore i) 850 100;
               isEligible := 1 |}
  else None.
Proof.
  unfold CreditHistoryVerifier.
  rewrite !GreaterEqThan_spec, !LessEqThan_spec, IsZero_spec.
  repeat case_decide; try reflexivity; try lia; try rewrite constrain_0_1;
    try reflexivity.
  all: exfalso; intuition lia.
Qed.

Lemma eligibility_checks_spec (i : Inputs) :
  eligibility_checks i =
  if decide (creditScoreMin i <= creditScore i
             /\ creditScore i <= creditScoreMax i
             /\ minHistoryLength i <= historyLength i
             /\ defaultCount i = 0
             /\ recentLatePayments i <= 3
             /\ 0 <= creditScore i /\ creditScore i <= 850)
  then 1 else 0.
Proof.
  unfold eligibility_checks.
  rewrite !GreaterEqThan_spec, !LessEqThan_spec, IsZero_spec.
  repeat case_decide; try reflexivity; exfalso; intuition lia.
Qed.



(** C6: for the credit score 700 the circuit outputs as [creditRating]
    the field quotient of 70000 by 850, the element whose product with
    850 is 70000; it is neither 82 nor any value up to 100. *)
Theorem creditRating_700_is_field_quotient :
  exists o, CreditHistoryVerifier Examples.credit_scenario = Some o
    /\ creditRating o =
       2575087396686973555558400675912620598652748752990121687493906374891271587802
    /\ fmul (creditRating o) 850 = 70000
    /\ creditRating o <> 70000 / 850
    /\ 70000 / 850 = 82
    /\ 100 < creditRating o.
Proof.
  eexists. split; [vm_compute; reflexivity|]. cbn [creditRating].
  repeat split; try (vm_compute; congruence).
Qed.

End CreditHistoryProperties.

(** ** Merkle membership proof *)

Section MerkleProperties.

Import Merkle.

Variable Poseidon : list F -> F.

Lemma IsBinary_Some (x out : F) : IsBinary x = Some out -> out = 0.
Proof.
  unfold IsBinary. destruct (constrain _ 0) as [[]|] eqn:E; [|discriminate].
  apply constrain_Some in E. congruence.
Qed.

(** The first binary check already ties [isValid] to the output of
    [IsBinary], which is 0. *)
Lemma binary_checks_cons (pathIndices : list F) (isValid : F) (i : nat)
    (rest : list nat) :
  binary_checks pathIndices isValid (i :: rest) = Some tt -> isValid = 0.
Proof.
  cbn [binary_checks].
  destruct (IsBinary _) as [out|] eqn:Hb; [|discriminate].
  apply IsBinary_Some in Hb. subst out.
  destruct (constrain 0 isValid) as [[]|] eqn:Hc; [|discriminate].
  apply constrain_Some in Hc. congruence.
Qed.

(** With at least one level, a witness of the Merkle circuit has
    [isValid = 0]. *)
Lemma MerkleTreeVerifier_isValid_zero (levels : nat) (root : F)
    (pathIndices : list F) (leafHash : F) (pathElements : list F) (v : F) :
  (0 < levels)%nat ->
  MerkleTreeVerifier Poseidon levels root pathIndices leafHash pathElements
    = Some v ->
  v = 0.
Proof.
  intros Hl. unfold MerkleTreeVerifier.
  destruct (negb _); [discriminate|].
  destruct (constrain _ _); [|discriminate].
  destruct levels as [|n]; [lia|].
  cbn [seq].
  destruct (binary_checks _ _ (0%nat :: _)) as [[]|] eqn:Hb; [|discriminate].
  apply binary_checks_cons in Hb. congruence.
Qed.

(** A path that hashes to the root, the honest one in particular, has no
    witness as soon as there is one level. *)
Lemma MerkleTreeVerifier_matching_root (levels : nat) (pathIndices : list F)
    (leafHash : F) (pathElements : list F) :
  (0 < levels)%nat ->
  MerkleTreeVerifier Poseidon levels
    (fold_left (hash_level Poseidon pathIndices pathElements)
       (seq 0 levels) leafHash)
    pathIndices leafHash pathElements = None.
Proof.
  intros Hl.
  destruct (MerkleTreeVerifier _ _ _ _ _ _) as [v|] eqn:E; [|reflexivity].
  pose proof (MerkleTreeVerifier_isValid_zero _ _ _ _ _ _ Hl E) as Hv.
  revert E. unfold MerkleTreeVerifier.
  destruct (negb _); [discriminate|].
  rewrite Z.eqb_refl.
  destruct (constrain _ _); [|discriminate].
  destruct (binary_checks _ _ _); [|discriminate].
  intros [= <-]. discriminate.
Qed.

(** Depth one, the leaf on the left of its sibling. *)
Lemma depth_one_left_leaf (leaf sibling : F) :
  MerkleTreeVerifier Poseidon 1 (Poseidon [leaf; sibling]) [0] leaf [sibling]
  = None.
Proof.
  apply (MerkleTreeVerifier_matching_root 1 [0] leaf [sibling]). lia.
Qed.

(** C2: for the tree of depth one over the leaves 1 and 2, the honest
    path of leaf index 0 (sibling 2, direction 0), with the root of the
    tree and the hash of the leaf, gives no witness of
    [MerkleTreeVerifier(1)], whatever the hash function: the output
    [isValid = 1] is never produced. *)
Theorem merkle_honest_path_has_no_witness :
  MerkleTreeVerifier Poseidon 1 (Poseidon [1; 2]) [0] 1 [2] = None.
Proof.
  apply depth_one_left_leaf.
Qed.

Lemma validity_flags_zero (levels : nat) (batch : list BatchEntry)
    (flags : list F) :
  (0 < levels)%nat ->
  validity_flags Poseidon levels batch = Some flags ->
  Forall (fun f => f = 0) flags.
Proof.
  intros Hl. revert flags.
  induction batch as [|e batch IH]; intros flags; cbn [validity_flags].
  - intros [= <-]. constructor.
  - destruct (MerkleTreeVerifier _ _ _ _ _ _) as [f|] eqn:Hf; [|discriminate].
    destruct (validity_flags _ _ _) as [fs|]; [|discriminate].
    intros [= <-]. constructor.
    + eapply MerkleTreeVerifier_isValid_zero; eauto.
    + now apply IH.
Qed.

Lemma fold_fmul_zero (flags : list F) : fold_left fmul flags 0 = 0.
Proof.
  induction flags as [|f flags IH]; [reflexivity|].
  cbn [fold_left]. unfold fmul at 2. rewrite Z.mul_0_l, Z.mod_0_l; [exact IH|].
  unfold p. lia.
Qed.

(** With at least one level, a witness of the batch circuit has
    [allValid = 0]. *)
Lemma BatchMerkleVerifier_allValid_zero (batchSize levels : nat)
    (batch : list BatchEntry) (a : F) :
  (0 < levels)%nat ->
  BatchMerkleVerifier Poseidon batchSize levels batch = Some a -> a = 0.
Proof.
  intros Hl. unfold BatchMerkleVerifier.
  destruct (negb _); [discriminate|].
  destruct (validity_flags _ _ _) as [flags|] eqn:Hf; [|discriminate].
  apply validity_flags_zero in Hf; [|assumption].
  destruct flags as [|f0 rest]; [discriminate|].
  inversion Hf as [|? ? H0 Hrest]; subst.
  destruct (constrain _ _); [|discriminate].
  intros [= <-]. cbn [fold_left].
  replace (fmul 1 0) with 0 by reflexivity.
  now rewrite !fold_fmul_zero.
Qed.

(** C4: a batch of three proofs of depth one, two honest ones and one
    with a replaced sibling, gives no witness of
    [BatchMerkleVerifier(3, 1)], whatever the hash function: neither
    [allValid = 0] nor the three validity flags are produced. *)
Theorem batch_two_valid_one_corrupted_has_no_witness :
  BatchMerkleVerifier Poseidon 3 1
    [Examples.honest_entry Poseidon; Examples.honest_entry Poseidon;
     Examples.corrupted_entry Poseidon] = None.
Proof.
  unfold BatchMerkleVerifier. cbn [length Nat.eqb negb].
  cbn [validity_flags Examples.honest_entry batchRoot batchIndex batchLeaf
       batchPath].
  now rewrite depth_one_left_leaf.
Qed.

(** At depth zero, where a proof is valid when the leaf is the root, the
    constraint on [allValidCheck] compares the first flag alone with the
    product: a batch whose first proof is valid and whose last is not has
    no witness, and the same batch with the invalid proof first has one,
    with [allValid = 0]. *)
Lemma batch_allValidCheck_first_flag :
  BatchMerkleVerifier Poseidon 3 0
    [Examples.leaf_entry 5 5; Examples.leaf_entry 5 5;
     Examples.leaf_entry 5 6] = None
  /\ BatchMerkleVerifier Poseidon 3 0
       [Examples.leaf_entry 5 6; Examples.leaf_entry 5 5;
        Examples.leaf_entry 5 5] = Some 0
  /\ BatchMerkleVerifier Poseidon 3 0
       [Examples.leaf_entry 5 5; Examples.leaf_entry 5 5;
        Examples.leaf_entry 5 5] = Some 1.
Proof.
  repeat split; vm_compute; reflexivity.
Qed.

End MerkleProperties.

(** ** Collateral proof *)

Section CollateralProperties.

Import Collateral.
Import ZKProofService.

Lemma IsOne_no_witness (x : F) : IsOne x = None.
Proof. reflexivity. Qed.

(** The collateral circuit has no witness for any input: the constraint
    [out === 1] of [IsOne] is on a signal that nothing assigns. *)
Lemma CollateralVerifier_no_witness (i : Inputs) :
  CollateralVerifier i = None.
Proof.
  unfold CollateralVerifier.
  repeat match goal with
         | |- match constrain ?a ?b with _ => _ end = None =>
             destruct (constrain a b) as [[]|]; [|reflexivity]
         end.
  now rewrite IsOne_no_witness.
Qed.




End CollateralProperties.

(** ** ZKCreditVerifier: subject credit state *)

Section CreditStateProperties.

Import ZKCreditVerifier.

Variable keccak256 : list abi_item -> Z.

Lemma verifyProof_userCreditInfo (env : Env) (st : State) (proofId : Z)
    (proof publicSignals : list Z) (name : string) (level : Z) (b : bool)
    (st' : State) :
  verifyProof keccak256 env st proofId proof publicSignals name level
    = Ok (b, st') ->
  userCreditInfo st' = userCreditInfo st.
Proof.
  unfold verifyProof. intros H.
  repeat match type of H with
         | (if ?c then _ else _) = _ => destruct c; try discriminate
         end;
    injection H as _ <-; reflexivity.
Qed.

(** One transaction changes the record of a subject as one step of
    [last_write] does. *)
Lemma execute_last_write (user : Z) (st : State) (tx : Env * Call)
    (txs : list (Env * Call)) :
  last_write user (tx :: txs) (userCreditInfo st !! user)
  = last_write user txs (userCreditInfo (execute keccak256 st tx) !! user).
Proof.
  destruct tx as [env [proofId proof sigs name level
                      | u tier incomeMin incomeMax level
                      | keyName keyData]];
    cbn [last_write execute].
  - destruct (verifyProof _ _ _ _ _ _ _ _) as [[b st']| |] eqn:E;
      try reflexivity.
    now rewrite (verifyProof_userCreditInfo _ _ _ _ _ _ _ _ _ E).
  - unfold updateCreditAssessment.
    destruct (Z.eqb_spec u 0) as [->|Hu0]; cbn [negb].
    + now rewrite andb_false_r.
    + destruct (1 <=? tier); cbn [andb];
        [|now rewrite !andb_false_r].
      destruct (tier <=? 5); cbn [andb];
        [|now rewrite !andb_false_r].
      destruct (incomeMin <=? incomeMax); cbn [andb];
        [|now rewrite !andb_false_r].
      rewrite !andb_true_r. cbn [userCreditInfo].
      destruct (Z.eqb_spec u user) as [->|Hne].
      * now rewrite lookup_insert_eq.
      * now rewrite lookup_insert_ne.
  - unfold setVerificationKey.
    repeat match goal with
           | |- context [if ?c then _ else _] => destruct c
           end; reflexivity.
Qed.

Lemma fold_execute_last_write (user : Z) (txs : list (Env * Call))
    (st : State) :
  userCreditInfo (fold_left (execute keccak256) txs st) !! user
  = last_write user txs (userCreditInfo st !! user).
Proof.
  revert st. induction txs as [|tx txs IH]; intros st; [reflexivity|].
  cbn [fold_left]. rewrite IH. symmetry. apply execute_last_write.
Qed.

Lemma last_write_valid (user : Z) (txs : list (Env * Call))
    (acc : option UserCreditInfo) (info : UserCreditInfo) :
  (forall r, acc = Some r -> valid_info r) ->
  last_write user txs acc = Some info -> valid_info info.
Proof.
  revert acc. induction txs as [|[env call] txs IH]; intros acc Hacc.
  - cbn. auto.
  - destruct call as [| u tier incomeMin incomeMax level |]; cbn [last_write];
      try (apply IH; assumption).
    destruct (_ && _) eqn:Hc; [|apply IH; assumption].
    apply IH. intros r [= <-]. unfold valid_info. cbn.
    repeat (apply andb_prop in Hc; destruct Hc as [Hc ?]). lia.
Qed.

(** C9: after every sequence of transactions from deployment, the stored
    record of every subject is that of the last accepted update for that
    subject, or none when there was none: all the fields of that call,
    stamped with its block time, and nothing of earlier updates.  Every
    stored record has its tier between 1 and 5 and its income bounds
    ordered.  A call of [updateCreditAssessment] returns exactly for a
    subject other than the zero address, a tier between 1 and 5 and
    ordered bounds, and then it replaces the record of the subject, all
    five fields at once with [lastUpdated] set to the block time, leaves
    the records of the other subjects as they were, and emits its
    event. *)
Theorem credit_state_invariant (txs : list (Env * Call)) :
  (forall user,
     userCreditInfo (run keccak256 txs) !! user = last_write user txs None)
  /\ (forall user info,
        userCreditInfo (run keccak256 txs) !! user = Some info ->
        1 <= creditScoreTier info <= 5
        /\ verifiedIncomeMin info <= verifiedIncomeMax info)
  /\ (forall env st user tier incomeMin incomeMax level st',
        updateCreditAssessment env st user tier incomeMin incomeMax level
          = Ok st'
        <-> (user <> 0 /\ 1 <= tier <= 5 /\ incomeMin <= incomeMax)
            /\ st' =
               {| verificationKeys := verificationKeys st;
                  verifiedIdentities := verifiedIdentities st;
                  userCreditInfo :=
                    <[user := {| creditScoreTier := tier;
                                 verifiedIncomeMin := incomeMin;
                                 verifiedIncomeMax := incomeMax;
                                 userVerificationLevel := level;
                                 lastUpdated := block_timestamp env |}]>
                      (userCreditInfo st);
                  events := events st ++
                    [CreditAssessmentUpdated user tier incomeMin
                       incomeMax] |}).
Proof.
  assert (Hlw : forall user,
             userCreditInfo (run keccak256 txs) !! user
             = last_write user txs None).
  { intros user. unfold run. rewrite fold_execute_last_write.
    replace (userCreditInfo init) with (∅ : gmap Z UserCreditInfo)
      by reflexivity.
    now rewrite lookup_empty. }
  split; [exact Hlw|]. split.
  - intros user info H. rewrite Hlw in H.
    eapply (last_write_valid user txs None); [discriminate | exact H].
  - intros env st user tier incomeMin incomeMax level st'.
    unfold updateCreditAssessment.
    destruct (Z.eqb_spec user 0) as [Hu|Hu]; cbn [negb].
    { split; [discriminate | intros [[? _] _]; contradiction]. }
    destruct (Z.leb_spec 1 tier); cbn [andb];
      [|split; [discriminate | intros [(_ & ? & _) _]; lia]].
    destruct (Z.leb_spec tier 5);
      [|split; [discriminate | intros [(_ & ? & _) _]; lia]].
    destruct (Z.leb_spec incomeMin incomeMax);
      [|split; [discriminate | intros [(_ & _ & ?) _]; lia]].
    split.
    + intros [= <-]. split; [lia | reflexivity].
    + intros [_ ->]. reflexivity.
Qed.

(** An accepted update stores exactly its arguments and the block time
    for the subject, and leaves the other subjects as they were. *)
Lemma updateCreditAssessment_overwrites (env : Env) (st st' : State)
    (user tier incomeMin incomeMax : Z) (level : VerificationLevel) :
  updateCreditAssessment env st user tier incomeMin incomeMax level = Ok st' ->
  userCreditInfo st' !! user
  = Some {| creditScoreTier := tier; verifiedIncomeMin := incomeMin;
            verifiedIncomeMax := incomeMax; userVerificationLevel := level;
            lastUpdated := block_timestamp env |}
  /\ forall other, other <> user ->
       userCreditInfo st' !! other = userCreditInfo st !! other.
Proof.
  unfold updateCreditAssessment. intros H.
  repeat match type of H with
         | (if ?c then _ else _) = _ => destruct c; try discriminate
         end.
  injection H as <-. cbn [userCreditInfo]. split.
  - apply lookup_insert_eq.
  - intros other Hne. now apply lookup_insert_ne.
Qed.

Lemma getUserCreditInfo_zero (st : State) (user : Z) :
  lastUpdated (userCreditInfo_at st user) = 0 ->
  getUserCreditInfo st user = Revert "No credit information available".
Proof.
  intros H. unfold getUserCreditInfo. now rewrite H.
Qed.

Lemma getCreditDecision_zero (st : State) (user amount : Z) :
  lastUpdated (userCreditInfo_at st user) = 0 ->
  getCreditDecision st user amount
  = Revert "No credit information available".
Proof.
  intros H. unfold getCreditDecision. now rewrite H.
Qed.

(** C10: for a subject whose stored [lastUpdated] is 0, as it is for every
    subject never updated, [getUserCreditInfo] and [getCreditDecision]
    both revert with the message "No credit information available". *)
Theorem no_credit_information_reverts (st : State) (user amount : Z) :
  lastUpdated (userCreditInfo_at st user) = 0 ->
  getUserCreditInfo st user = Revert "No credit information available"
  /\ getCreditDecision st user amount
     = Revert "No credit information available".
Proof.
  intros H. split.
  - now apply getUserCreditInfo_zero.
  - now apply getCreditDecision_zero.
Qed.

(** A subject with no accepted update in the history reads as the zero
    record, so both getters revert for it. *)
Lemma never_updated_reverts (txs : list (Env * Call)) (user amount : Z) :
  last_write user txs None = None ->
  getUserCreditInfo (run keccak256 txs) user
    = Revert "No credit information available"
  /\ getCreditDecision (run keccak256 txs) user amount
     = Revert "No credit information available".
Proof.
  intros H.
  assert (Hz : lastUpdated (userCreditInfo_at (run keccak256 txs) user) = 0).
  { unfold userCreditInfo_at, run. rewrite fold_execute_last_write.
    replace (userCreditInfo init) with (∅ : gmap Z UserCreditInfo)
      by reflexivity.
    rewrite lookup_empty, H. reflexivity. }
  split.
  - now apply getUserCreditInfo_zero.
  - now apply getCreditDecision_zero.
Qed.

(** The getters return only for a subject with an accepted update. *)
Lemma getters_return_after_update (txs : list (Env * Call))
    (user amount : Z) :
  (exists info, getUserCreditInfo (run keccak256 txs) user = Ok info)
  \/ (exists d, getCreditDecision (run keccak256 txs) user amount = Ok d) ->
  exists info, last_write user txs None = Some info.
Proof.
  intros H. destruct (last_write user txs None) as [info|] eqn:E; [eauto|].
  destruct (never_updated_reverts txs user amount E) as [H1 H2].
  destruct H as [[i Hi]|[d Hd]]; congruence.
Qed.

(** C8, as the contract has it: a call of [verifyProof] that passes the
    argument checks returns the result of the mock check; when the check
    fails the state is left as it was, no record is stored and no event
    is emitted, and when it succeeds the record stored for the proof
    identifier has [isValid = true]. *)
Theorem verifyProof_records_only_success (env : Env) (st st' : State)
    (proofId : Z) (proof publicSignals : list Z) (name : string) (level : Z)
    (b : bool) :
  verifyProof keccak256 env st proofId proof publicSignals name level
    = Ok (b, st') ->
  b = _validateZKProof keccak256 proof publicSignals name
  /\ (b = false -> st' = st)
  /\ (b = true ->
      verifiedIdentities st' !! proofId
      = Some {| isValid := true; verificationLevel := level;
                timestamp := block_timestamp env;
                verifier := msg_sender env |}).
Proof.
  unfold verifyProof. intros H.
  repeat match type of H with
         | (if ?c then _ else _) = _ => destruct c eqn:?; try discriminate
         end;
    injection H as <- <-.
  - repeat split; try discriminate.
    intros _. cbn [verifiedIdentities]. apply lookup_insert_eq.
  - repeat split; try discriminate.
Qed.

End CreditStateProperties.

Section CreditStateExamples.

Import ZKCreditVerifier.

Lemma credit_state_invariant_witness :
  userCreditInfo (run ExampleDigest.digest Examples.two_updates) !! 42
  = Some {| creditScoreTier := 3; verifiedIncomeMin := 20000;
            verifiedIncomeMax := 90000; userVerificationLevel := Premium;
            lastUpdated := 1700000012 |}
  /\ userCreditInfo (run ExampleDigest.digest Examples.two_updates) !! 43
     = None.
Proof.
  split.
  - exact (eq_trans
             (proj1 (credit_state_invariant ExampleDigest.digest
                       Examples.two_updates) 42) eq_refl).
  - exact (eq_trans
             (proj1 (credit_state_invariant ExampleDigest.digest
                       Examples.two_updates) 43) eq_refl).
Defined.

Lemma no_credit_information_reverts_witness :
  lastUpdated (userCreditInfo_at init 42) = 0
  /\ getUserCreditInfo init 42 = Revert "No credit information available"
  /\ getCreditDecision init 42 1000
     = Revert "No credit information available".
Proof.
  split; [reflexivity|].
  apply (no_credit_information_reverts init 42 1000). reflexivity.
Defined.

(** C8, as stated, fails: the proof [3] with the signals
    [15000; 80000; 45000] under the key name "income_verification_key"
    is well formed, its Keccak-256 digest is 93 modulo 100, so the check
    rejects it, and the call leaves the contract as deployed, with no
    record for its identifier. *)
Lemma failed_verification_stores_nothing :
  ExampleDigest.digest
    [abi_uints [3]; abi_uints [15000; 80000; 45000];
     abi_string "income_verification_key"] mod 100 = 93
  /\ verifyProof ExampleDigest.digest Examples.env1 init 77
       Examples.rejected_proof Examples.income_signals
       "income_verification_key" 1
     = Ok (false, init)
  /\ verifiedIdentities init !! 77 = None.
Proof.
  repeat split; vm_compute; reflexivity.
Qed.

Lemma verifyProof_records_only_success_witness :
  verifyProof ExampleDigest.digest Examples.env1 init 77
    Examples.rejected_proof Examples.income_signals
    "income_verification_key" 1
  = Ok (false, init)
  /\ false = _validateZKProof ExampleDigest.digest Examples.rejected_proof
               Examples.income_signals "income_verification_key".
Proof.
  assert (H : verifyProof ExampleDigest.digest Examples.env1 init 77
                Examples.rejected_proof Examples.income_signals
                "income_verification_key" 1 = Ok (false, init))
    by (vm_compute; reflexivity).
  split; [exact H|].
  exact (proj1 (verifyProof_records_only_success
                  ExampleDigest.digest _ _ _ _ _ _ _ _ _ H)).
Defined.

End CreditStateExamples.

(** ** Verifier: verification records *)

Section VerifierProperties.

Import Verifier.

Variable keccak256 : list abi_item -> Z.

(** What a returning call of [verifyProof] has done: the identifier is the
    digest of the proof, the signals, the incremented counter, the block
    time and the caller; no record was stored under it; the check has run
    and its result is stored under the identifier, which is appended to
    the history of the caller. *)
Lemma verifyProof_Ok_inv (env : Env) (st st' : State)
    (proof publicSignals : list Z) (name : string)
    (proofSystem : VerificationSystem) (id : Z) :
  verifyProof keccak256 env st proof publicSignals name proofSystem
    = Ok (id, st') ->
  id = keccak256 [abi_bytes proof; abi_uints publicSignals;
                  abi_uint (proofCounter st + 1);
                  abi_uint (block_timestamp env);
                  abi_address (msg_sender env)]
  /\ proofId (verificationResults_at st id) = 0
  /\ proofCounter st' = proofCounter st + 1
  /\ (exists r, verificationResults st' !! id = Some r
        /\ isValid r = _performMockVerification keccak256 proof publicSignals
                         proofSystem
        /\ proofId r = id
        /\ timestamp r = block_timestamp env
        /\ verifier r = msg_sender env)
  /\ userVerificationHistory_at st' (msg_sender env)
     = userVerificationHistory_at st (msg_sender env) ++ [id].
Proof.
  unfold verifyProof, _generateVerificationId, _verifyProofWithSystem, checked.
  intros H.
  repeat (match type of H with
          | context [if ?c then _ else _] => destruct c eqn:?
          end; cbn beta iota in H; try discriminate).
  injection H as <- <-.
  cbn [proofCounter verificationResults userVerificationHistory].
  repeat split.
  - now apply Z.eqb_eq.
  - eexists. split; [apply lookup_insert_eq|]. repeat split.
  - unfold userVerificationHistory_at at 1.
    cbn [userVerificationHistory]. now rewrite lookup_insert_eq.
Qed.

(** A call whose identifier already has a record reverts; it does not
    return that record. *)
Lemma verifyProof_already_verified (env : Env) (st : State)
    (proof publicSignals : list Z) (name : string)
    (proofSystem : VerificationSystem) :
  proofId (verificationResults_at st
             (keccak256 [abi_bytes proof; abi_uints publicSignals;
                         abi_uint (proofCounter st + 1);
                         abi_uint (block_timestamp env);
                         abi_address (msg_sender env)])) <> 0 ->
  forall r, verifyProof keccak256 env st proof publicSignals name proofSystem
            <> Ok r.
Proof.
  intros Hne [id st'] H. apply verifyProof_Ok_inv in H.
  destruct H as (-> & H0 & _). contradiction.
Qed.

(** C3, as the contract has it: the identifier of a verification is the
    digest of the proof, the signals, the counter after its increment,
    the block time and the caller, and the name of the key is no part of
    it.  [verifyProof] never returns a record that exists: a call that
    returns has found no record under its identifier, has run the check
    and has stored the result under the identifier; a call by an
    operator, with a proof of 1 to 2000 bytes and a stored, active key,
    whose identifier already has a record reverts with the message
    "Proof already verified". *)
Theorem verifyProof_identifier_and_guard (env : Env) (st : State)
    (proof publicSignals : list Z) (name : string)
    (proofSystem : VerificationSystem) :
  (forall id st',
     verifyProof keccak256 env st proof publicSignals name proofSystem
       = Ok (id, st') ->
     id = keccak256 [abi_bytes proof; abi_uints publicSignals;
                     abi_uint (proofCounter st + 1);
                     abi_uint (block_timestamp env);
                     abi_address (msg_sender env)]
     /\ proofId (verificationResults_at st id) = 0
     /\ exists r, verificationResults st' !! id = Some r
          /\ isValid r = _performMockVerification keccak256 proof
                           publicSignals proofSystem
          /\ proofId r = id
          /\ timestamp r = block_timestamp env
          /\ verifier r = msg_sender env)
  /\ (onlyOperator env st = true ->
      0 < Z.of_nat (length proof) <= 2000 ->
      keyName (verificationKeys_at st name) <> "" ->
      isActive (verificationKeys_at st name) = true ->
      0 <= proofCounter st + 1 <= UINT256_MAX ->
      proofId (verificationResults_at st
                 (keccak256 [abi_bytes proof; abi_uints publicSignals;
                             abi_uint (proofCounter st + 1);
                             abi_uint (block_timestamp env);
                             abi_address (msg_sender env)])) <> 0 ->
      verifyProof keccak256 env st proof publicSignals name proofSystem
        = Revert "Proof already verified").
Proof.
  split.
  - intros id st' H. apply verifyProof_Ok_inv in H.
    destruct H as (Hid & Hfree & _ & Hrec & _). auto.
  - intros Hop Hlen Hkey Hact Hctr Hrec.
    unfold verifyProof, _generateVerificationId, checked.
    rewrite Hop, Hact.
    replace (0 <? Z.of_nat (length proof)) with true by (symmetry; lia).
    replace (Z.of_nat (length proof) <=? 2000) with true by (symmetry; lia).
    replace (0 <? Z.of_nat (String.length
                     (keyName (verificationKeys_at st name))))
      with true
      by (destruct (keyName (verificationKeys_at st name));
          [congruence | reflexivity]).
    replace (0 <=? proofCounter st + 1) with true by (symmetry; lia).
    replace (proofCounter st + 1 <=? UINT256_MAX) with true
      by (symmetry; lia).
    cbn [andb].
    apply Z.eqb_neq in Hrec. now rewrite Hrec.
Qed.

(** When [verifyProof] is called a second time with the same arguments
    and returns, the second identifier is taken at the next counter
    value and differs from the first unless that is zero, the check has
    run again, and its result is stored as a second record, appended to
    the history of the caller. *)
Lemma verifyProof_twice_verifies_twice (env1 env2 : Env)
    (st st1 st2 : State) (proof publicSignals : list Z) (name : string)
    (proofSystem : VerificationSystem) (id1 id2 : Z) :
  verifyProof keccak256 env1 st proof publicSignals name proofSystem
    = Ok (id1, st1) ->
  verifyProof keccak256 env2 st1 proof publicSignals name proofSystem
    = Ok (id2, st2) ->
  id1 = keccak256 [abi_bytes proof; abi_uints publicSignals;
                   abi_uint (proofCounter st + 1);
                   abi_uint (block_timestamp env1);
                   abi_address (msg_sender env1)]
  /\ id2 = keccak256 [abi_bytes proof; abi_uints publicSignals;
                      abi_uint (proofCounter st + 2);
                      abi_uint (block_timestamp env2);
                      abi_address (msg_sender env2)]
  /\ (id1 <> 0 -> id2 <> id1)
  /\ proofCounter st2 = proofCounter st + 2
  /\ (exists r, verificationResults st2 !! id2 = Some r
        /\ isValid r = _performMockVerification keccak256 proof publicSignals
                         proofSystem
        /\ proofId r = id2
        /\ timestamp r = block_timestamp env2
        /\ verifier r = msg_sender env2)
  /\ userVerificationHistory_at st2 (msg_sender env2)
     = userVerificationHistory_at st1 (msg_sender env2) ++ [id2].
Proof.
  intros H1 H2.
  apply verifyProof_Ok_inv in H1.
  destruct H1 as (Hid1 & Hfree1 & Hc1 & (r1 & Hr1 & _ & Hp1 & _) & _).
  apply verifyProof_Ok_inv in H2.
  destruct H2 as (Hid2 & Hfree2 & Hc2 & Hrec2 & Hhist2).
  rewrite Hc1 in Hid2, Hc2.
  replace (proofCounter st + 1 + 1) with (proofCounter st + 2) in * by lia.
  repeat split; try assumption.
  intros Hnz Heq. rewrite Heq in Hfree2.
  unfold verificationResults_at in Hfree2. rewrite Hr1 in Hfree2.
  cbn in Hfree2. congruence.
Qed.

End VerifierProperties.

Section VerifierExamples.

Import Verifier.

(** C3, as stated, fails: two calls with the same proof, signals and key,
    in the same block and by the same caller, return two identifiers, and
    the contract holds two records and a history of two verifications. *)
Lemma second_verification_is_a_new_record :
  Examples.first_call = Ok (Examples.first_id, Examples.after_first)
  /\ Examples.second_call Examples.env1
     = Ok (Examples.second_id Examples.env1,
           Examples.after_second Examples.env1)
  /\ (Examples.first_id =? Examples.second_id Examples.env1) = false
  /\ userVerificationHistory_at (Examples.after_second Examples.env1) 11
     = [Examples.first_id; Examples.second_id Examples.env1]
  /\ size (verificationResults (Examples.after_second Examples.env1)) = 2%nat
  /\ proofCounter (Examples.after_second Examples.env1) = 2.
Proof.
  repeat split; vm_compute; reflexivity.
Qed.

Lemma verifyProof_identifier_and_guard_witness :
  onlyOperator Examples.env1 Examples.replayed = true
  /\ proofId (verificationResults_at Examples.replayed Examples.first_id)
     = Examples.first_id
  /\ verifyProof ExampleDigest.digest Examples.env1 Examples.replayed
       [1; 2; 3] Examples.income_signals "income_verification_key" Groth16
     = Revert "Proof already verified".
Proof.
  assert (Hop : onlyOperator Examples.env1 Examples.replayed = true)
    by (vm_compute; reflexivity).
  split; [exact Hop|]. split; [vm_compute; reflexivity|].
  apply (proj2 (verifyProof_identifier_and_guard ExampleDigest.digest
                  Examples.env1 Examples.replayed [1; 2; 3]
                  Examples.income_signals "income_verification_key"
                  Groth16)).
  - exact Hop.
  - cbn. lia.
  - vm_compute. discriminate.
  - vm_compute. reflexivity.
  - vm_compute. split; discriminate.
  - vm_compute. discriminate.
Defined.

Lemma verifyProof_twice_verifies_twice_example :
  Examples.first_call = Ok (Examples.first_id, Examples.after_first)
  /\ Examples.second_call Examples.env2
     = Ok (Examples.second_id Examples.env2,
           Examples.after_second Examples.env2)
  /\ (Examples.first_id <> 0 ->
      Examples.second_id Examples.env2 <> Examples.first_id)
  /\ proofCounter (Examples.after_second Examples.env2)
     = proofCounter Examples.verifier_with_key + 2.
Proof.
  assert (H1 : Examples.first_call
               = Ok (Examples.first_id, Examples.after_first))
    by (vm_compute; reflexivity).
  assert (H2 : Examples.second_call Examples.env2
               = Ok (Examples.second_id Examples.env2,
                     Examples.after_second Examples.env2))
    by (vm_compute; reflexivity).
  split; [exact H1|]. split; [exact H2|].
  pose proof (verifyProof_twice_verifies_twice ExampleDigest.digest
                Examples.env1 Examples.env2 Examples.verifier_with_key
                Examples.after_first (Examples.after_second Examples.env2)
                [1; 2; 3] Examples.income_signals "income_verification_key"
                Groth16 Examples.first_id (Examples.second_id Examples.env2)
                H1 H2) as H.
  split; [exact (proj1 (proj2 (proj2 H)))
         | exact (proj1 (proj2 (proj2 (proj2 H))))].
Defined.

End VerifierExamples.

(** * Further properties of the circuits *)

Section CircuitFacts.

Lemma constrain_1_inv (a : F) : constrain a 1 = Some tt -> a = 1.
Proof. apply constrain_Some. Qed.

Lemma GreaterEqThan_1 (n : Z) (a b : F) :
  b <= a -> GreaterEqThan n a b = 1.
Proof. intros H. rewrite GreaterEqThan_spec. now rewrite decide_True. Qed.

Lemma GreaterEqThan_inv (n : Z) (a b : F) :
  GreaterEqThan n a b = 1 -> b <= a.
Proof. rewrite GreaterEqThan_spec. case_decide; [auto | discriminate]. Qed.

Lemma LessEqThan_1 (n : Z) (a b : F) : a <= b -> LessEqThan n a b = 1.
Proof. intros H. rewrite LessEqThan_spec. now rewrite decide_True. Qed.

Lemma LessEqThan_inv (n : Z) (a b : F) : LessEqThan n a b = 1 -> a <= b.
Proof. rewrite LessEqThan_spec. case_decide; [auto | discriminate]. Qed.

Lemma IsZero_inv (a : F) : IsZero a = 1 -> a = 0.
Proof. rewrite IsZero_spec. case_decide; [auto | discriminate]. Qed.

Lemma p_large : 2 ^ 252 < p.
Proof. reflexivity. Qed.

End CircuitFacts.

(** Takes the next constraint of a witness computation apart: it holds,
    or there is no witness. *)
Ltac next_constraint H :=
  match type of H with
  | match constrain ?a ?b with _ => _ end = Some _ =>
      let E := fresh "Hc" in
      destruct (constrain a b) as [[]|] eqn:E;
      [apply constrain_Some in E | discriminate H]
  end.

Section IncomeRange.

Import Income.

(** X1: for input signals within the width of the 252-bit comparators, the
    income circuit has a witness exactly for an income within the public
    bounds, the bounds being ordered and not negative. *)
Theorem IncomeVerifier_range (i : Inputs) :
  0 <= minIncome i < 2 ^ 252 ->
  0 <= maxIncome i < 2 ^ 252 ->
  0 <= actualIncome i < 2 ^ 252 ->
  ((exists c, IncomeVerifier i = Some c)
   <-> 0 <= minIncome i /\ minIncome i <= actualIncome i
       /\ actualIncome i <= maxIncome i).
Proof.
  intros _ _ _. split.
  - intros [c H]. unfold IncomeVerifier in H.
    repeat next_constraint H.
    repeat match goal with
           | E : GreaterEqThan _ _ _ = 1 |- _ => apply GreaterEqThan_inv in E
           | E : LessEqThan _ _ _ = 1 |- _ => apply LessEqThan_inv in E
           end.
    lia.
  - intros (H0 & H1 & H2). exists (actualIncome i).
    apply IncomeVerifier_accepts; lia.
Qed.

Lemma IncomeVerifier_range_witness :
  (0 <= 15000 < 2 ^ 252) /\ (0 <= 80000 < 2 ^ 252)
  /\ (0 <= 45000 < 2 ^ 252)
  /\ exists c, IncomeVerifier Examples.income_scenario = Some c.
Proof.
  assert (H1 : 0 <= minIncome Examples.income_scenario < 2 ^ 252)
    by (split; [cbn; lia | reflexivity]).
  assert (H2 : 0 <= maxIncome Examples.income_scenario < 2 ^ 252)
    by (split; [cbn; lia | reflexivity]).
  assert (H3 : 0 <= actualIncome Examples.income_scenario < 2 ^ 252)
    by (split; [cbn; lia | reflexivity]).
  split; [exact H1|]. split; [exact H2|]. split; [exact H3|].
  apply (proj2 (IncomeVerifier_range Examples.income_scenario H1 H2 H3)).
  cbn. lia.
Defined.

End IncomeRange.

Section CollateralSoundness.

Import Collateral.

(** X2: [MinComparator] selects the smaller of two inputs within the width of
    its comparator. *)
Theorem MinComparator_is_min (a b : F) :
  0 <= a < 2 ^ 252 -> 0 <= b < 2 ^ 252 ->
  MinComparator a b = Z.min a b.
Proof.
  intros Ha Hb. pose proof p_large as Hp.
  unfold MinComparator, LessThan, fadd, fmul, fsub.
  destruct (Z.ltb_spec a b).
  - rewrite Z.sub_diag, Z.mod_0_l, Z.mul_0_r, Z.mul_1_r by lia.
    rewrite Z.mod_0_l by lia.
    rewrite (Z.mod_small a) by lia. rewrite Z.add_0_r.
    rewrite Z.mod_small by lia. lia.
  - rewrite Z.sub_0_r, (Z.mod_small 1) by lia.
    rewrite Z.mul_0_r, Z.mul_1_r, Z.mod_0_l by lia.
    rewrite (Z.mod_small b) by lia. rewrite Z.add_0_l.
    rewrite Z.mod_small by lia. lia.
Qed.

Lemma MinComparator_is_min_witness :
  (0 <= 57 < 2 ^ 252) /\ (0 <= 40 < 2 ^ 252) /\ MinComparator 57 40 = 40.
Proof.
  assert (H1 : 0 <= 57 < 2 ^ 252) by (split; [lia | reflexivity]).
  assert (H2 : 0 <= 40 < 2 ^ 252) by (split; [lia | reflexivity]).
  split; [exact H1|]. split; [exact H2|].
  exact (MinComparator_is_min 57 40 H1 H2).
Defined.

End CollateralSoundness.

Section MerkleUses.

Import Merkle.

Variable Poseidon : list F -> F.

(** X4: with at least one level, as in the instance of depth 4, the identity
    circuit never outputs [verificationResult = 1]: every witness has
    the output 0. *)
Theorem IdentityVerification_never_verifies (levels : nat)
    (identityRoot : F) (pathIndices : list F) (userHash : F)
    (identityPath : list F) :
  (0 < levels)%nat ->
  forall v, IdentityVerification Poseidon levels identityRoot pathIndices
              userHash identityPath = Some v -> v = 0.
Proof.
  intros Hl v. unfold IdentityVerification.
  destruct (MerkleTreeVerifier _ _ _ _ _ _) as [w|] eqn:E; [|discriminate].
  intros [= <-]. eapply MerkleTreeVerifier_isValid_zero; eauto.
Qed.

(** X5: with at least one level, as in the instance of depth 3, the
    transaction circuit never outputs [transactionValid = 1]. *)
Theorem TransactionVerification_never_valid (levels : nat)
    (transactionRoot : F) (pathIndices : list F) (transactionHash : F)
    (transactionPath : list F) (timestamp currentTime : F) :
  (0 < levels)%nat ->
  forall v, TransactionVerification Poseidon levels transactionRoot
              pathIndices transactionHash transactionPath timestamp
              currentTime = Some v -> v = 0.
Proof.
  intros Hl v. unfold TransactionVerification.
  destruct (constrain _ _); [|discriminate].
  destruct (MerkleTreeVerifier _ _ _ _ _ _) as [w|] eqn:E; [|discriminate].
  intros [= <-]. eapply MerkleTreeVerifier_isValid_zero; eauto.
Qed.

End MerkleUses.

Section MerkleUsesExamples.

Import Merkle.

Lemma IdentityVerification_never_verifies_witness :
  (0 < 4)%nat
  /\ forall v, IdentityVerification ExampleDigest.circuit_hash 4 9
                 [0; 1; 0; 1] 5 [6; 7; 8; 9] = Some v -> v = 0.
Proof.
  assert (H : (0 < 4)%nat) by lia.
  split; [exact H|].
  exact (IdentityVerification_never_verifies ExampleDigest.circuit_hash
           4 9 [0; 1; 0; 1] 5 [6; 7; 8; 9] H).
Defined.

Lemma TransactionVerification_never_valid_witness :
  (0 < 3)%nat
  /\ forall v, TransactionVerification ExampleDigest.circuit_hash 3 9
                 [0; 1; 0] 5 [6; 7; 8] 1700000000 1700000012 = Some v
               -> v = 0.
Proof.
  assert (H : (0 < 3)%nat) by lia.
  split; [exact H|].
  exact (TransactionVerification_never_valid ExampleDigest.circuit_hash
           3 9 [0; 1; 0] 5 [6; 7; 8] 1700000000 1700000012 H).
Defined.

End MerkleUsesExamples.

(** * Further properties of ZKCreditVerifier *)

Section StringFacts.

Lemma length_pos_nonempty (s : string) :
  (0 <? Z.of_nat (String.length s)) = true <-> s <> "".
Proof.
  destruct s; cbn [String.length]; rewrite Z.ltb_lt; split;
    intros; try congruence; lia.
Qed.

Lemma list_length_pos_nonempty {A : Type} (l : list A) :
  (0 <? Z.of_nat (length l)) = true <-> l <> [].
Proof.
  destruct l; cbn [length]; rewrite Z.ltb_lt; split;
    intros; try congruence; lia.
Qed.

End StringFacts.

Section ZKCreditVerifierMore.

Import ZKCreditVerifier.

Variable keccak256 : list abi_item -> Z.

(** X7: a key that was set is read back, the other names read as before, and
    the records of proofs and subjects are untouched. *)
Theorem setVerificationKey_then_get (st st' : State) (keyName : string)
    (keyData : list Z) :
  setVerificationKey st keyName keyData = Ok st' ->
  getVerificationKey st' keyName = Ok keyData
  /\ (forall other, other <> keyName ->
        getVerificationKey st' other = getVerificationKey st other)
  /\ verifiedIdentities st' = verifiedIdentities st
  /\ userCreditInfo st' = userCreditInfo st.
Proof.
  unfold setVerificationKey. intros H.
  destruct (0 <? Z.of_nat (String.length keyName)) eqn:Hn; [|discriminate].
  destruct (0 <? Z.of_nat (length keyData)) eqn:Hd; [|discriminate].
  injection H as <-. repeat split.
  - unfold getVerificationKey, verificationKeys_at. rewrite Hn.
    cbn [verificationKeys]. rewrite lookup_insert_eq. cbn [default from_option id].
    now rewrite Hd.
  - intros other Hne. unfold getVerificationKey, verificationKeys_at.
    cbn [verificationKeys]. now rewrite lookup_insert_ne.
Qed.

Lemma execute_keys_nonempty (st : State) (tx : Env * Call) :
  (forall name data, verificationKeys st !! name = Some data ->
     name <> "" /\ data <> []) ->
  forall name data,
    verificationKeys (execute keccak256 st tx) !! name = Some data ->
    name <> "" /\ data <> [].
Proof.
  intros Hinv name data.
  destruct tx as [env [proofId proof sigs kn level
                      | u tier incomeMin incomeMax level
                      | keyName keyData]]; cbn [execute].
  - unfold verifyProof.
    repeat match goal with
           | |- context [if ?c then _ else _] => destruct c
           end; cbn [verificationKeys]; apply Hinv.
  - unfold updateCreditAssessment.
    repeat match goal with
           | |- context [if ?c then _ else _] => destruct c
           end; cbn [verificationKeys]; apply Hinv.
  - unfold setVerificationKey.
    destruct (0 <? Z.of_nat (String.length keyName)) eqn:Hn;
      [|apply Hinv].
    destruct (0 <? Z.of_nat (length keyData)) eqn:Hd; [|apply Hinv].
    cbn [verificationKeys]. rewrite lookup_insert.
    case_decide as Heq; [|apply Hinv].
    subst. intros [= <-]. split.
    + now apply length_pos_nonempty.
    + now apply list_length_pos_nonempty.
Qed.

Lemma run_keys_nonempty (txs : list (Env * Call)) (name : string)
    (data : list Z) :
  verificationKeys (run keccak256 txs) !! name = Some data ->
  name <> "" /\ data <> [].
Proof.
  unfold run.
  assert (Hgen : forall st,
    (forall n d, verificationKeys st !! n = Some d -> n <> "" /\ d <> []) ->
    forall n d,
    verificationKeys (fold_left (execute keccak256) txs st) !! n = Some d ->
    n <> "" /\ d <> []).
  { induction txs as [|tx txs IH]; intros st Hinv; cbn [fold_left].
    - apply Hinv.
    - apply IH. now apply execute_keys_nonempty. }
  apply Hgen. intros n d. cbn [init verificationKeys].
  now rewrite lookup_empty.
Qed.

(** X8: after any sequence of transactions, [getVerificationKey] returns the
    data of a key exactly when that key is stored; for a name that was
    never set it reverts with "Verification key not found", and for the
    empty name with "Invalid key name". *)
Theorem getVerificationKey_after_run (txs : list (Env * Call))
    (name : string) (data : list Z) :
  (getVerificationKey (run keccak256 txs) name = Ok data
   <-> verificationKeys (run keccak256 txs) !! name = Some data)
  /\ (name <> "" -> verificationKeys (run keccak256 txs) !! name = None ->
      getVerificationKey (run keccak256 txs) name
      = Revert "Verification key not found")
  /\ getVerificationKey (run keccak256 txs) ""
     = Revert "Invalid key name".
Proof.
  split; [split|split].
  - unfold getVerificationKey, verificationKeys_at.
    destruct (0 <? Z.of_nat (String.length name)); [|discriminate].
    destruct (verificationKeys _ !! name) as [d|]; cbn [default from_option id length].
    + destruct (0 <? Z.of_nat (length d)); congruence.
    + cbn. discriminate.
  - intros H. destruct (run_keys_nonempty _ _ _ H) as [Hn Hd].
    unfold getVerificationKey, verificationKeys_at. rewrite H.
    cbn [default from_option id].
    rewrite (proj2 (length_pos_nonempty name) Hn).
    now rewrite (proj2 (list_length_pos_nonempty data) Hd).
  - intros Hn Hnone. unfold getVerificationKey, verificationKeys_at.
    rewrite Hnone. rewrite (proj2 (length_pos_nonempty name) Hn).
    reflexivity.
  - reflexivity.
Qed.

Lemma execute_records_valid (st : State) (tx : Env * Call) :
  (forall id r, verifiedIdentities st !! id = Some r -> valid_record r) ->
  forall id r,
    verifiedIdentities (execute keccak256 st tx) !! id = Some r ->
    valid_record r.
Proof.
  intros Hinv id r.
  destruct tx as [env [proofId proof sigs kn level
                      | u tier incomeMin incomeMax level
                      | keyName keyData]]; cbn [execute].
  - unfold verifyProof.
    destruct (0 <? Z.of_nat (length proof)); [|apply Hinv].
    destruct (0 <? Z.of_nat (length sigs)); [|apply Hinv].
    destruct (0 <? Z.of_nat (String.length kn)); [|apply Hinv].
    destruct (level <=? 2) eqn:Hl; [|apply Hinv].
    destruct (_validateZKProof _ _ _ _); [|apply Hinv].
    cbn [verifiedIdentities]. rewrite lookup_insert.
    case_decide; [|apply Hinv].
    intros [= <-]. split; [reflexivity|]. cbn. now apply Z.leb_le.
  - unfold updateCreditAssessment.
    repeat match goal with
           | |- context [if ?c then _ else _] => destruct c
           end; cbn [verifiedIdentities]; apply Hinv.
  - unfold setVerificationKey.
    repeat match goal with
           | |- context [if ?c then _ else _] => destruct c
           end; cbn [verifiedIdentities]; apply Hinv.
Qed.

Lemma fold_records_valid (txs : list (Env * Call)) (st : State) :
  (forall id r, verifiedIdentities st !! id = Some r -> valid_record r) ->
  forall id r,
    verifiedIdentities (fold_left (execute keccak256) txs st) !! id = Some r ->
    valid_record r.
Proof.
  revert st. induction txs as [|tx txs IH]; intros st Hinv; cbn [fold_left].
  - apply Hinv.
  - apply IH. now apply execute_records_valid.
Qed.

(** X9: after any sequence of transactions, every stored verification record
    is a success at a level of at most 2, and [getVerificationStatus]
    reports it as valid with its level and time. *)
Theorem stored_records_are_successes (txs : list (Env * Call)) (id : Z)
    (r : VerificationResult) :
  verifiedIdentities (run keccak256 txs) !! id = Some r ->
  isValid r = true /\ verificationLevel r <= 2
  /\ getVerificationStatus (run keccak256 txs) id
     = (true, verificationLevel r, timestamp r).
Proof.
  intros H.
  assert (Hv : valid_record r).
  { apply (fold_records_valid txs init) with (id := id); [|exact H].
    intros i x. cbn [init verifiedIdentities]. now rewrite lookup_empty. }
  destruct Hv as [Hv Hl]. repeat split; try assumption.
  unfold getVerificationStatus, verifiedIdentities_at. rewrite H.
  cbn [default from_option]. unfold Datatypes.id. now rewrite Hv.
Qed.

(** X10: [verifyProof] returns exactly when the proof, the signals and the key
    name are not empty and the level is at most 2; it never panics, and
    it consults no stored key. *)
Theorem verifyProof_accepts_iff (env : Env) (st : State) (proofId : Z)
    (proof publicSignals : list Z) (name : string) (level : Z) :
  ((exists r, verifyProof keccak256 env st proofId proof publicSignals
                name level = Ok r)
   <-> proof <> [] /\ publicSignals <> [] /\ name <> "" /\ level <= 2)
  /\ (forall code, verifyProof keccak256 env st proofId proof publicSignals
                     name level <> Panic code)
  /\ (forall st2, match verifyProof keccak256 env st proofId proof
                          publicSignals name level,
                        verifyProof keccak256 env st2 proofId proof
                          publicSignals name level with
                  | Ok (b, _), Ok (b2, _) => b = b2
                  | Revert m, Revert m2 => m = m2
                  | _, _ => False
                  end).
Proof.
  unfold verifyProof.
  rewrite <- (list_length_pos_nonempty proof),
    <- (list_length_pos_nonempty publicSignals),
    <- (length_pos_nonempty name), <- Z.leb_le.
  destruct (0 <? Z.of_nat (length proof));
    [|split; [split; [intros [? ?]; discriminate | intuition discriminate]
             | split; [discriminate | reflexivity]]].
  destruct (0 <? Z.of_nat (length publicSignals));
    [|split; [split; [intros [? ?]; discriminate | intuition discriminate]
             | split; [discriminate | reflexivity]]].
  destruct (0 <? Z.of_nat (String.length name));
    [|split; [split; [intros [? ?]; discriminate | intuition discriminate]
             | split; [discriminate | reflexivity]]].
  destruct (level <=? 2);
    [|split; [split; [intros [? ?]; discriminate | intuition discriminate]
             | split; [discriminate | reflexivity]]].
  split; [split; [auto | intros _]|split].
  - destruct (_validateZKProof _ _ _ _); eexists; reflexivity.
  - intros code. destruct (_validateZKProof _ _ _ _); discriminate.
  - intros st2. destruct (_validateZKProof _ _ _ _); reflexivity.
Qed.

(** X11: an accepted update in a block with a positive time is read back by
    [getUserCreditInfo] as exactly the arguments and that time. *)
Theorem update_then_getUserCreditInfo (env : Env) (st st' : State)
    (user tier incomeMin incomeMax : Z) (level : VerificationLevel) :
  updateCreditAssessment env st user tier incomeMin incomeMax level = Ok st' ->
  0 < block_timestamp env ->
  getUserCreditInfo st' user
  = Ok {| creditScoreTier := tier; verifiedIncomeMin := incomeMin;
          verifiedIncomeMax := incomeMax; userVerificationLevel := level;
          lastUpdated := block_timestamp env |}.
Proof.
  intros H Ht.
  destruct (updateCreditAssessment_overwrites _ _ _ _ _ _ _ _ H) as [Hu _].
  unfold getUserCreditInfo, userCreditInfo_at. rewrite Hu.
  cbn [default from_option id lastUpdated].
  now rewrite (proj2 (Z.ltb_lt _ _) Ht).
Qed.

(** X12: [getCreditDecision] never approves: whenever it returns, the answer
    is not approved, with amount 0 and rate 0.  For a tier of at most 3
    the product [50000 * (6 - creditScore)] exceeds its 16-bit type. *)
Theorem getCreditDecision_never_approves (st : State)
    (user requestedAmount : Z) (d : bool * Z * Z) :
  getCreditDecision st user requestedAmount = Ok d -> d = (false, 0, 0).
Proof.
  unfold getCreditDecision, checked, UINT16_MAX, UINT8_MAX. intros H.
  destruct (0 <? lastUpdated _); [|discriminate].
  destruct (_ && _); [|discriminate]. cbn beta iota in H.
  destruct ((0 <=? 6 - _) && _) eqn:Hd; [|discriminate]. cbn beta iota in H.
  destruct ((0 <=? 50000 * _) && _) eqn:Hp; [|discriminate].
  cbn beta iota in H.
  destruct ((creditScoreTier _ <=? 3) && _) eqn:Ha.
  - exfalso. apply andb_prop in Ha. destruct Ha as [Ha _].
    apply andb_prop in Hp. destruct Hp as [_ Hp].
    apply Z.leb_le in Ha. apply Z.leb_le in Hp. lia.
  - now injection H as <-.
Qed.

(** X13: for a stored record with a positive time, a tier from 1 to 5 and
    ordered 256-bit income bounds, [getCreditDecision] answers "not
    approved" for tier 5 and panics with an arithmetic overflow for the
    tiers 1 to 4. *)
Theorem getCreditDecision_by_tier (st : State) (user requestedAmount : Z)
    (info : UserCreditInfo) :
  userCreditInfo st !! user = Some info ->
  0 < lastUpdated info ->
  1 <= creditScoreTier info <= 5 ->
  0 <= verifiedIncomeMin info <= verifiedIncomeMax info ->
  verifiedIncomeMax info <= UINT256_MAX ->
  getCreditDecision st user requestedAmount
  = if creditScoreTier info =? 5 then Ok (false, 0, 0) else Panic 17.
Proof.
  intros Hs Ht Htier Hinc Hmax.
  unfold getCreditDecision, userCreditInfo_at, checked. rewrite Hs.
  cbn [default from_option id].
  rewrite (proj2 (Z.ltb_lt _ _) Ht).
  replace ((0 <=? verifiedIncomeMax info - verifiedIncomeMin info)
           && (verifiedIncomeMax info - verifiedIncomeMin info
               <=? UINT256_MAX)) with true
    by (symmetry; apply andb_true_intro; split; apply Z.leb_le; lia).
  replace ((0 <=? 6 - creditScoreTier info)
           && (6 - creditScoreTier info <=? UINT8_MAX)) with true
    by (symmetry; apply andb_true_intro; unfold UINT8_MAX;
        split; apply Z.leb_le; lia).
  destruct (Z.eqb_spec (creditScoreTier info) 5) as [E|E].
  - rewrite E. reflexivity.
  - replace ((0 <=? 50000 * (6 - creditScoreTier info))
             && (50000 * (6 - creditScoreTier info) <=? UINT16_MAX))
      with false; [reflexivity|].
    symmetry. apply andb_false_intro2. apply Z.leb_gt.
    unfold UINT16_MAX. lia.
Qed.

End ZKCreditVerifierMore.

Section ZKCreditVerifierMoreExamples.

Import ZKCreditVerifier.

Lemma setVerificationKey_then_get_witness :
  setVerificationKey init "income_verification_key" [1; 2; 3]
  = Ok {| verificationKeys := {[ "income_verification_key" := [1; 2; 3] ]};
          verifiedIdentities := ∅; userCreditInfo := ∅; events := [] |}
  /\ getVerificationKey
       {| verificationKeys := {[ "income_verification_key" := [1; 2; 3] ]};
          verifiedIdentities := ∅; userCreditInfo := ∅; events := [] |}
       "income_verification_key" = Ok [1; 2; 3].
Proof.
  assert (H : setVerificationKey init "income_verification_key" [1; 2; 3]
    = Ok {| verificationKeys := {[ "income_verification_key" := [1; 2; 3] ]};
            verifiedIdentities := ∅; userCreditInfo := ∅; events := [] |})
    by (vm_compute; reflexivity).
  split; [exact H|].
  exact (proj1 (setVerificationKey_then_get _ _ _ _ H)).
Defined.

Lemma stored_records_are_successes_witness :
  verifiedIdentities (run ExampleDigest.digest Examples.one_verification)
    !! 77
  = Some {| isValid := true; verificationLevel := 1;
            timestamp := 1700000000; verifier := 11 |}
  /\ getVerificationStatus
       (run ExampleDigest.digest Examples.one_verification) 77
     = (true, 1, 1700000000).
Proof.
  assert (H : verifiedIdentities
                (run ExampleDigest.digest Examples.one_verification) !! 77
              = Some {| isValid := true; verificationLevel := 1;
                        timestamp := 1700000000; verifier := 11 |})
    by (vm_compute; reflexivity).
  split; [exact H|].
  exact (proj2 (proj2 (stored_records_are_successes ExampleDigest.digest
                         _ _ _ H))).
Defined.

Lemma update_then_getUserCreditInfo_witness :
  updateCreditAssessment Examples.env1 init 42 2 15000 80000 Enhanced
  = Ok {| verificationKeys := ∅; verifiedIdentities := ∅;
          userCreditInfo :=
            {[ 42 := {| creditScoreTier := 2; verifiedIncomeMin := 15000;
                        verifiedIncomeMax := 80000;
                        userVerificationLevel := Enhanced;
                        lastUpdated := 1700000000 |} ]};
          events := [CreditAssessmentUpdated 42 2 15000 80000] |}
  /\ 0 < block_timestamp Examples.env1
  /\ getUserCreditInfo
       {| verificationKeys := ∅; verifiedIdentities := ∅;
          userCreditInfo :=
            {[ 42 := {| creditScoreTier := 2; verifiedIncomeMin := 15000;
                        verifiedIncomeMax := 80000;
                        userVerificationLevel := Enhanced;
                        lastUpdated := 1700000000 |} ]};
          events := [CreditAssessmentUpdated 42 2 15000 80000] |} 42
     = Ok {| creditScoreTier := 2; verifiedIncomeMin := 15000;
             verifiedIncomeMax := 80000; userVerificationLevel := Enhanced;
             lastUpdated := 1700000000 |}.
Proof.
  assert (H : updateCreditAssessment Examples.env1 init 42 2 15000 80000
                Enhanced = Ok _) by (vm_compute; reflexivity).
  assert (Ht : 0 < block_timestamp Examples.env1) by reflexivity.
  split; [exact H|]. split; [exact Ht|].
  exact (update_then_getUserCreditInfo _ _ _ _ _ _ _ _ H Ht).
Defined.

Lemma getCreditDecision_never_approves_witness :
  getCreditDecision
    {| verificationKeys := ∅; verifiedIdentities := ∅;
       userCreditInfo :=
         {[ 42 := {| creditScoreTier := 5; verifiedIncomeMin := 15000;
                     verifiedIncomeMax := 80000;
                     userVerificationLevel := Basic;
                     lastUpdated := 1700000000 |} ]};
       events := [] |} 42 1000 = Ok (false, 0, 0)
  /\ (false, 0, 0) = (false, 0, 0).
Proof.
  assert (H : getCreditDecision
    {| verificationKeys := ∅; verifiedIdentities := ∅;
       userCreditInfo :=
         {[ 42 := {| creditScoreTier := 5; verifiedIncomeMin := 15000;
                     verifiedIncomeMax := 80000;
                     userVerificationLevel := Basic;
                     lastUpdated := 1700000000 |} ]};
       events := [] |} 42 1000 = Ok (false, 0, 0))
    by (vm_compute; reflexivity).
  split; [exact H|].
  exact (getCreditDecision_never_approves _ _ _ _ H).
Defined.

Lemma getCreditDecision_by_tier_witness :
  getCreditDecision
    {| verificationKeys := ∅; verifiedIdentities := ∅;
       userCreditInfo :=
         {[ 42 := {| creditScoreTier := 2; verifiedIncomeMin := 15000;
                     verifiedIncomeMax := 80000;
                     userVerificationLevel := Enhanced;
                     lastUpdated := 1700000000 |} ]};
       events := [] |} 42 1000 = Panic 17.
Proof.
  refine (getCreditDecision_by_tier _ 42 1000
            {| creditScoreTier := 2; verifiedIncomeMin := 15000;
               verifiedIncomeMax := 80000;
               userVerificationLevel := Enhanced;
               lastUpdated := 1700000000 |} _ _ _ _ _).
  - vm_compute. reflexivity.
  - reflexivity.
  - cbn. lia.
  - cbn. lia.
  - cbn. unfold UINT256_MAX. lia.
Defined.

End ZKCreditVerifierMoreExamples.

(** * Further properties of Verifier *)

Section VerifierMore.

Import Verifier.

Variable keccak256 : list abi_item -> Z.

Lemma VerificationSystem_eqb_eq (a b : VerificationSystem) :
  VerificationSystem_eqb a b = true <-> a = b.
Proof. destruct a, b; cbn; split; intros; congruence. Qed.

(** What a returning call of [verifyProof] has checked, and the state it
    leaves. *)
Lemma verifyProof_Ok_state (env : Env) (st st' : State)
    (proof publicSignals : list Z) (name : string)
    (proofSystem : VerificationSystem) (id : Z) :
  verifyProof keccak256 env st proof publicSignals name proofSystem
    = Ok (id, st') ->
  onlyOperator env st = true
  /\ keyName (verificationKeys_at st name) <> ""
  /\ isActive (verificationKeys_at st name) = true
  /\ system (verificationKeys_at st name) = proofSystem
  /\ exists method,
       st' = {| owner := owner st;
                   operators := operators st;
                   verificationKeys := verificationKeys st;
                   keyNames := keyNames st;
                   verificationResults :=
                     <[id := {| isValid :=
                                  _performMockVerification keccak256 proof
                                    publicSignals proofSystem;
                                proofId := id;
                                verifier := msg_sender env;
                                gasUsed := gasleft env;
                                timestamp := block_timestamp env;
                                systemUsed := proofSystem;
                                verificationMethod := method |}]>
                       (verificationResults st);
                   userVerificationHistory :=
                     <[msg_sender env :=
                         userVerificationHistory_at st (msg_sender env)
                         ++ [id]]> (userVerificationHistory st);
                   circuitMappings := circuitMappings st;
                   circuitCosts := circuitCosts st;
                   proofCounter := proofCounter st + 1;
                   lastProofId := id;
                   events := events st ++
                     [ProofVerified id (msg_sender env)
                        (_performMockVerification keccak256 proof
                           publicSignals proofSystem)
                        proofSystem (gasleft env)] |}.
Proof.
  unfold verifyProof, _generateVerificationId, _verifyProofWithSystem, checked.
  intros H.
  destruct (onlyOperator env st) eqn:Hop; [|discriminate].
  destruct (0 <? Z.of_nat (length proof)); [|discriminate].
  destruct (Z.of_nat (length proof) <=? 2000); [|discriminate].
  destruct (0 <? Z.of_nat (String.length _)) eqn:Hk; [|discriminate].
  destruct (isActive (verificationKeys_at st name)) eqn:Ha; [|discriminate].
  destruct (_ && _); [|discriminate]. cbn beta iota in H.
  destruct (_ =? 0); [|discriminate].
  destruct (VerificationSystem_eqb _ _) eqn:Hs; [|discriminate].
  cbn beta iota in H. injection H as <- <-.
  split; [reflexivity|]. split; [now apply length_pos_nonempty|].
  split; [reflexivity|]. split; [now apply VerificationSystem_eqb_eq|].
  eexists. reflexivity.
Qed.

(** X14: a caller who is neither an operator nor the owner is turned away by
    [verifyProof], [addVerificationKey] and [updateVerificationKeyStatus],
    and [emergencyDeactivateKey] turns away every caller but the owner,
    operators included. *)
Theorem access_control (env : Env) (st : State) (proof publicSignals : list Z)
    (name : string) (data : list Z) (sys : VerificationSystem) (b : bool) :
  msg_sender env <> owner st ->
  (operators_at st (msg_sender env) = false ->
   verifyProof keccak256 env st proof publicSignals name sys
     = Revert "Only operators can perform this action"
   /\ addVerificationKey env st name data sys
      = Revert "Only operators can perform this action"
   /\ updateVerificationKeyStatus env st name b
      = Revert "Only operators can perform this action")
  /\ emergencyDeactivateKey env st name
     = Revert "Only owner can perform this action".
Proof.
  intros Hne. apply Z.eqb_neq in Hne. split.
  - intros Hop.
    unfold verifyProof, addVerificationKey, updateVerificationKeyStatus,
      onlyOperator.
    rewrite Hop, Hne. repeat split; reflexivity.
  - unfold emergencyDeactivateKey, onlyOwner. now rewrite Hne.
Qed.

(** X15: what an operator does with [updateVerificationKeyStatus(name, false)]
    is what the owner does with [emergencyDeactivateKey(name)]: the two
    calls leave the same state. *)
Theorem operator_deactivation_is_emergency_deactivation (env envOwner : Env)
    (st st' : State) (name : string) :
  msg_sender envOwner = owner st ->
  updateVerificationKeyStatus env st name false = Ok st' ->
  emergencyDeactivateKey envOwner st name = Ok st'.
Proof.
  intros Ho. unfold updateVerificationKeyStatus, emergencyDeactivateKey,
    onlyOwner.
  rewrite Ho, Z.eqb_refl.
  destruct (onlyOperator env st); [|discriminate].
  destruct (0 <? _); [|discriminate]. trivial.
Qed.

(** X16: in the state that the deactivation of a key leaves, by either
    entry point, no call of [verifyProof] under its name returns. *)
Theorem deactivated_key_verifies_nothing (env env2 : Env) (st st' : State)
    (name : string) (proof publicSignals : list Z)
    (sys : VerificationSystem) :
  emergencyDeactivateKey env st name = Ok st'
  \/ updateVerificationKeyStatus env st name false = Ok st' ->
  forall r, verifyProof keccak256 env2 st' proof publicSignals name sys
            <> Ok r.
Proof.
  intros Hd [id st2] Hv.
  apply verifyProof_Ok_state in Hv. destruct Hv as (_ & _ & Ha & _).
  assert (Hst : verificationKeys st' !! name
                = Some (set_isActive false (verificationKeys_at st name))).
  { destruct Hd as [Hd|Hd];
      [unfold emergencyDeactivateKey in Hd
      |unfold updateVerificationKeyStatus in Hd];
      repeat match type of Hd with
             | (if ?c then _ else _) = _ => destruct c; [|discriminate]
             end;
      injection Hd as <-; cbn [set_verificationKeys verificationKeys];
      apply lookup_insert_eq. }
  unfold verificationKeys_at at 1 in Ha. rewrite Hst in Ha.
  cbn in Ha. discriminate.
Qed.

(** X17: setting the status of a key changes its [isActive] field and nothing
    else: the key reads back with that field assigned, the other keys and
    the list of names are as before. *)
Theorem updateVerificationKeyStatus_then_get (env : Env) (st st' : State)
    (name : string) (b : bool) :
  updateVerificationKeyStatus env st name b = Ok st' ->
  getVerificationKey st' name = set_isActive b (getVerificationKey st name)
  /\ (forall other, other <> name ->
        getVerificationKey st' other = getVerificationKey st other)
  /\ getVerificationKeyNames st' = getVerificationKeyNames st
  /\ verificationResults st' = verificationResults st.
Proof.
  unfold updateVerificationKeyStatus. intros H.
  repeat match type of H with
         | (if ?c then _ else _) = _ => destruct c; [|discriminate]
         end.
  injection H as <-.
  unfold getVerificationKey, getVerificationKeyNames.
  repeat split.
  - unfold verificationKeys_at at 1.
    cbn [set_verificationKeys verificationKeys].
    now rewrite lookup_insert_eq.
  - intros other Hne. unfold verificationKeys_at.
    cbn [set_verificationKeys verificationKeys].
    now rewrite lookup_insert_ne.
Qed.

(** X18: a key added for one proof system verifies nothing for another: a
    call of [verifyProof] under its name with a different system does
    not return. *)
Theorem added_key_rejects_other_system (env env2 : Env) (st st' : State)
    (name : string) (data : list Z) (sys sys2 : VerificationSystem)
    (proof publicSignals : list Z) :
  addVerificationKey env st name data sys = Ok st' ->
  sys2 <> sys ->
  forall r, verifyProof keccak256 env2 st' proof publicSignals name sys2
            <> Ok r.
Proof.
  intros Ha Hne [id st2] Hv.
  apply verifyProof_Ok_state in Hv. destruct Hv as (_ & _ & _ & Hs & _).
  unfold addVerificationKey in Ha.
  repeat match type of Ha with
         | (if ?c then _ else _) = _ => destruct c; [|discriminate]
         end.
  injection Ha as <-.
  unfold verificationKeys_at in Hs. cbn [verificationKeys] in Hs.
  rewrite lookup_insert_eq in Hs. cbn in Hs. congruence.
Qed.

(** X19: [verifyProof] returns exactly when the caller is an operator or the
    owner, the proof has between 1 and 2000 bytes, the key is stored,
    active and of the requested system, the counter can be incremented,
    and no record carries the new identifier. *)
Theorem verifyProof_returns_iff (env : Env) (st : State)
    (proof publicSignals : list Z) (name : string)
    (sys : VerificationSystem) :
  (exists r, verifyProof keccak256 env st proof publicSignals name sys = Ok r)
  <-> onlyOperator env st = true
      /\ 0 < Z.of_nat (length proof) <= 2000
      /\ keyName (verificationKeys_at st name) <> ""
      /\ isActive (verificationKeys_at st name) = true
      /\ system (verificationKeys_at st name) = sys
      /\ 0 <= proofCounter st + 1 <= UINT256_MAX
      /\ proofId (verificationResults_at st
                    (keccak256 [abi_bytes proof; abi_uints publicSignals;
                                abi_uint (proofCounter st + 1);
                                abi_uint (block_timestamp env);
                                abi_address (msg_sender env)])) = 0.
Proof.
  unfold verifyProof, _generateVerificationId, _verifyProofWithSystem, checked.
  rewrite <- (length_pos_nonempty (keyName _)).
  rewrite <- VerificationSystem_eqb_eq.
  destruct (onlyOperator env st);
    [|split; [intros [? ?]; discriminate | intuition discriminate]].
  destruct (Z.ltb_spec 0 (Z.of_nat (length proof)));
    [|split; [intros [? ?]; discriminate | intros; exfalso; lia]].
  destruct (Z.leb_spec (Z.of_nat (length proof)) 2000);
    [|split; [intros [? ?]; discriminate | intros; exfalso; lia]].
  destruct (0 <? Z.of_nat (String.length _));
    [|split; [intros [? ?]; discriminate | intuition discriminate]].
  destruct (isActive _);
    [|split; [intros [? ?]; discriminate | intuition discriminate]].
  destruct (Z.leb_spec 0 (proofCounter st + 1)); cbn [andb];
    [|split; [intros [? ?]; discriminate | intros; exfalso; lia]].
  destruct (Z.leb_spec (proofCounter st + 1) UINT256_MAX);
    [|split; [intros [? ?]; discriminate | intros; exfalso; lia]].
  cbn beta iota.
  match goal with
  | |- context [?a =? 0] => destruct (Z.eqb_spec a 0)
  end;
    [|split; [intros [? ?]; discriminate | intros; exfalso; tauto]].
  destruct (VerificationSystem_eqb _ _);
    [|split; [intros [? ?]; discriminate | intuition discriminate]].
  cbn beta iota. split.
  - intros _. repeat split; auto; lia.
  - intros _. eexists. reflexivity.
Qed.

(** ** Invariants of the transactions *)

Lemma addVerificationKey_Ok_state (env : Env) (st st' : State)
    (name : string) (data : list Z) (sys : VerificationSystem) :
  addVerificationKey env st name data sys = Ok st' ->
  name <> ""
  /\ verificationKeys st'
     = <[name := {| keyName := name; keyData := data;
                    createdAt := block_timestamp env;
                    creator := msg_sender env;
                    isActive := true; system := sys |}]>
         (verificationKeys st)
  /\ keyNames st'
     = (if Z.of_nat (String.length (keyName (verificationKeys_at st name)))
           =? 0
        then keyNames st ++ [name] else keyNames st)
  /\ verificationResults st' = verificationResults st
  /\ userVerificationHistory st' = userVerificationHistory st
  /\ proofCounter st' = proofCounter st
  /\ owner st' = owner st /\ operators st' = operators st
  /\ events st' = events st ++ [VerificationKeyAdded name (msg_sender env) sys].
Proof.
  unfold addVerificationKey. intros H.
  destruct (onlyOperator env st); [|discriminate].
  destruct (0 <? Z.of_nat (String.length name)) eqn:Hn; [|discriminate].
  destruct (0 <? Z.of_nat (length data)); [|discriminate].
  injection H as <-. split; [now apply length_pos_nonempty|].
  repeat split.
Qed.

Lemma set_status_Ok_state (st st' : State) (name : string) (b : bool)
    (guard : bool) (msg : string) :
  (if guard
   then if 0 <? Z.of_nat (String.length
                            (keyName (verificationKeys_at st name)))
        then Ok (set_verificationKeys
                   (<[name := set_isActive b (verificationKeys_at st name)]>
                      (verificationKeys st)) st)
        else Revert "Key not found"
   else Revert msg) = Ok st' ->
  keyName (verificationKeys_at st name) <> ""
  /\ st' = set_verificationKeys
             (<[name := set_isActive b (verificationKeys_at st name)]>
                (verificationKeys st)) st.
Proof.
  destruct guard; [|discriminate].
  destruct (0 <? _) eqn:Hk; [|discriminate].
  intros [= <-]. split; [now apply length_pos_nonempty | reflexivity].
Qed.

Lemma stored_key_of_name (st : State) (name : string) :
  keyName (verificationKeys_at st name) <> "" ->
  verificationKeys st !! name = Some (verificationKeys_at st name).
Proof.
  unfold verificationKeys_at.
  destruct (verificationKeys st !! name); cbn; [reflexivity | congruence].
Qed.

Lemma keys_consistent_set_status (st : State) (name : string) (b : bool) :
  keys_consistent st ->
  keyName (verificationKeys_at st name) <> "" ->
  keys_consistent
    (set_verificationKeys
       (<[name := set_isActive b (verificationKeys_at st name)]>
          (verificationKeys st)) st).
Proof.
  intros (Hk & Hnd & Hmem) Hne.
  pose proof (stored_key_of_name st name Hne) as Hs.
  unfold keys_consistent. cbn [set_verificationKeys verificationKeys keyNames].
  split; [|split; [exact Hnd|]].
  - intros n k. rewrite lookup_insert. case_decide as Heq.
    + subst n. intros [= <-]. cbn [set_isActive keyName].
      exact (Hk _ _ Hs).
    + apply Hk.
  - intros n. rewrite Hmem. rewrite lookup_insert. case_decide as Heq.
    + subst n. rewrite Hs. split; intros _; eauto.
    + reflexivity.
Qed.

Lemma execute_keys_consistent (st : State) (tx : Env * Call) :
  keys_consistent st -> keys_consistent (execute keccak256 st tx).
Proof.
  intros Hinv.
  destruct tx as [env [proof sigs name sys | name data sys | name b | name
                      | circuit name cost | sys supported]];
    cbn [execute].
  - destruct (verifyProof _ _ _ _ _ _ _) as [[id st']| |] eqn:E; try assumption.
    apply verifyProof_Ok_state in E.
    destruct E as (_ & _ & _ & _ & method & ->). exact Hinv.
  - destruct (addVerificationKey _ _ _ _ _) as [st'| |] eqn:E; try assumption.
    apply addVerificationKey_Ok_state in E.
    destruct E as (Hn & Hkeys & Hnames & _).
    destruct Hinv as (Hk & Hnd & Hmem).
    unfold keys_consistent. rewrite Hkeys, Hnames. split; [|split].
    + intros n k. rewrite lookup_insert. case_decide as Heq.
      * subst n. intros [= <-]. cbn. auto.
      * apply Hk.
    + destruct (verificationKeys st !! name) as [key|] eqn:Hl.
      * unfold verificationKeys_at. rewrite Hl. cbn [default from_option].
        unfold Datatypes.id.
        destruct (Hk _ _ Hl) as [-> _].
        destruct (Z.eqb_spec (Z.of_nat (String.length name)) 0) as [E0|_];
          [|exact Hnd].
        destruct name; [congruence | cbn in E0; lia].
      * unfold verificationKeys_at. rewrite Hl. cbn.
        apply NoDup_app. split; [exact Hnd|]. split.
        -- intros x Hx Hx'. apply list_elem_of_singleton in Hx'. subst x.
           apply Hmem in Hx. rewrite Hl in Hx. now destruct Hx.
        -- apply NoDup_singleton.
    + intros n. rewrite lookup_insert.
      destruct (verificationKeys st !! name) as [key|] eqn:Hl.
      * unfold verificationKeys_at. rewrite Hl. cbn [default from_option].
        unfold Datatypes.id.
        destruct (Hk _ _ Hl) as [-> _].
        destruct (Z.eqb_spec (Z.of_nat (String.length name)) 0) as [E0|_];
          [destruct name; [congruence | cbn in E0; lia]|].
        rewrite Hmem. case_decide as Heq; [|reflexivity].
        subst n. rewrite Hl. split; intros _; eauto.
      * unfold verificationKeys_at. rewrite Hl. cbn.
        change (Z.of_nat 0 =? 0) with true. cbn iota.
        rewrite elem_of_app, list_elem_of_singleton, Hmem.
        case_decide as Heq.
        -- subst n. split; [eauto | auto].
        -- split; [intros [?|?]; [assumption | congruence] | auto].
  - destruct (updateVerificationKeyStatus _ _ _ _) as [st'| |] eqn:E;
      try assumption.
    apply set_status_Ok_state in E. destruct E as [Hne ->].
    now apply keys_consistent_set_status.
  - destruct (emergencyDeactivateKey _ _ _) as [st'| |] eqn:E; try assumption.
    apply set_status_Ok_state in E. destruct E as [Hne ->].
    now apply keys_consistent_set_status.
  - destruct (addCircuitMapping _ _ _ _ _) as [st'| |] eqn:E; try assumption.
    unfold addCircuitMapping in E.
    repeat match type of E with
           | (if ?c then _ else _) = _ => destruct c; [|discriminate]
           end.
    injection E as <-. exact Hinv.
  - destruct (registerVerificationSystem _ _ _ _) as [st'| |] eqn:E;
      try assumption.
    unfold registerVerificationSystem in E.
    repeat match type of E with
           | (if ?c then _ else _) = _ => destruct c; [|discriminate]
           end.
    injection E as <-. exact Hinv.
Qed.

Lemma fold_execute_invariant (P : State -> Prop) (txs : list (Env * Call))
    (st : State) :
  (forall s tx, P s -> P (execute keccak256 s tx)) ->
  P st -> P (fold_left (execute keccak256) txs st).
Proof.
  intros Hstep. revert st.
  induction txs as [|tx txs IH]; intros st Hst; cbn [fold_left]; auto.
Qed.

(** X20: after deployment and any sequence of transactions, every key is
    stored under its own non-empty name, [keyNames] lists exactly the
    stored names without repetition, and the number of keys that
    [getContractStats] reports is the number of keys stored. *)
Theorem key_registry_consistent (deploy : Env) (txs : list (Env * Call)) :
  keys_consistent (run keccak256 deploy txs)
  /\ fst (fst (fst (getContractStats (run keccak256 deploy txs))))
     = Z.of_nat (size (verificationKeys (run keccak256 deploy txs))).
Proof.
  assert (H : keys_consistent (run keccak256 deploy txs)).
  { unfold run. apply fold_execute_invariant.
    - intros s tx. apply execute_keys_consistent.
    - unfold keys_consistent. cbn [constructor verificationKeys keyNames].
      split; [|split].
      + intros n k. now rewrite lookup_empty.
      + constructor.
      + intros n. rewrite lookup_empty. split.
        * intros Hn. inversion Hn.
        * intros [? ?]. discriminate. }
  split; [exact H|].
  destruct H as (_ & Hnd & Hmem). cbn [getContractStats fst]. f_equal.
  rewrite <- size_dom. unfold size at 1, set_size. cbn.
  apply Permutation_length, NoDup_Permutation.
  - exact Hnd.
  - apply NoDup_elements.
  - intros x. rewrite Hmem, elem_of_elements, elem_of_dom. reflexivity.
Qed.

End VerifierMore.

Section VerifierRecords.

Import Verifier.

Variable keccak256 : list abi_item -> Z.

Lemma execute_results_consistent (st : State) (tx : Env * Call) :
  results_consistent st -> results_consistent (execute keccak256 st tx).
Proof.
  intros Hinv.
  destruct tx as [env [proof sigs name sys | name data sys | name b | name
                      | circuit name cost | sys supported]];
    cbn [execute].
  - destruct (verifyProof _ _ _ _ _ _ _) as [[id st']| |] eqn:E; try assumption.
    apply verifyProof_Ok_state in E.
    destruct E as (_ & _ & _ & _ & method & ->).
    destruct Hinv as [Hr Hh]. unfold results_consistent.
    cbn [verificationResults userVerificationHistory]. split.
    + intros i r. rewrite lookup_insert. case_decide as Heq.
      * subst i. now intros [= <-].
      * apply Hr.
    + intros a ids i. rewrite lookup_insert. case_decide as Heq.
      * subst a. intros [= <-]. rewrite elem_of_app, list_elem_of_singleton.
        intros [Hi | ->]; [|rewrite lookup_insert_eq; eauto].
        unfold userVerificationHistory_at in Hi.
        destruct (userVerificationHistory st !! msg_sender env) as [l|] eqn:Hl;
          cbn in Hi; [|now apply not_elem_of_nil in Hi].
        rewrite lookup_insert. case_decide; [eauto|]. eapply Hh; eauto.
      * intros Ha Hi. rewrite lookup_insert. case_decide; [eauto|].
        eapply Hh; eauto.
  - destruct (addVerificationKey _ _ _ _ _) as [st'| |] eqn:E; try assumption.
    apply addVerificationKey_Ok_state in E.
    destruct E as (_ & _ & _ & Hres & Hhist & _).
    unfold results_consistent. rewrite Hres, Hhist. exact Hinv.
  - destruct (updateVerificationKeyStatus _ _ _ _) as [st'| |] eqn:E;
      try assumption.
    apply set_status_Ok_state in E. destruct E as [_ ->]. exact Hinv.
  - destruct (emergencyDeactivateKey _ _ _) as [st'| |] eqn:E; try assumption.
    apply set_status_Ok_state in E. destruct E as [_ ->]. exact Hinv.
  - destruct (addCircuitMapping _ _ _ _ _) as [st'| |] eqn:E; try assumption.
    unfold addCircuitMapping in E.
    repeat match type of E with
           | (if ?c then _ else _) = _ => destruct c; [|discriminate]
           end.
    injection E as <-. exact Hinv.
  - destruct (registerVerificationSystem _ _ _ _) as [st'| |] eqn:E;
      try assumption.
    unfold registerVerificationSystem in E.
    repeat match type of E with
           | (if ?c then _ else _) = _ => destruct c; [|discriminate]
           end.
    injection E as <-. exact Hinv.
Qed.

Lemma run_results_consistent (deploy : Env) (txs : list (Env * Call)) :
  results_consistent (run keccak256 deploy txs).
Proof.
  unfold run. apply fold_execute_invariant.
  - intros s tx. apply execute_results_consistent.
  - unfold results_consistent.
    cbn [constructor verificationResults userVerificationHistory].
    split; intros *; now rewrite lookup_empty.
Qed.

(** X21: after deployment and any sequence of transactions, every identifier
    in the history of a caller has a record stored under it that carries
    that identifier, and [batchCheckVerification] answers, for each
    identifier asked, the [isValid] field that [getVerificationResult]
    reads for it: false for an identifier never issued. *)
Theorem batchCheckVerification_reads_records (deploy : Env)
    (txs : list (Env * Call)) (ids : list Z) :
  batchCheckVerification (run keccak256 deploy txs) ids
  = map (fun id => isValid (getVerificationResult (run keccak256 deploy txs) id))
      ids
  /\ (forall caller id,
        id ∈ getUserVerificationHistory (run keccak256 deploy txs) caller ->
        exists r, verificationResults (run keccak256 deploy txs) !! id = Some r
                  /\ proofId r = id)
  /\ (forall id,
        verificationResults (run keccak256 deploy txs) !! id = None ->
        batchCheckVerification (run keccak256 deploy txs) [id] = [false]).
Proof.
  destruct (run_results_consistent deploy txs) as [Hr Hh].
  split; [|split].
  - unfold batchCheckVerification, getVerificationResult.
    apply map_ext. intros id. unfold verificationResults_at.
    destruct (verificationResults _ !! id) as [r|] eqn:Hl; cbn.
    + rewrite (Hr _ _ Hl), Z.eqb_refl. reflexivity.
    + now destruct id.
  - intros caller id. unfold getUserVerificationHistory,
      userVerificationHistory_at.
    destruct (userVerificationHistory _ !! caller) as [l|] eqn:Hl; cbn.
    + intros Hi. destruct (Hh _ _ _ Hl Hi) as [r Hrec].
      exists r. split; [exact Hrec | exact (Hr _ _ Hrec)].
    + intros Hi. now apply not_elem_of_nil in Hi.
  - intros id Hn. unfold batchCheckVerification. cbn [map].
    unfold verificationResults_at. rewrite Hn. cbn. now destruct id.
Qed.

End VerifierRecords.

Section VerifierCircuits.

Import Verifier.

(** X25: a circuit mapping that was added is read back by
    [getCircuitMapping] with its key name and cost, the other circuits
    read as before, and the call returns only for a positive cost and a
    key that is stored. *)
Theorem addCircuitMapping_then_get (env : Env) (st st' : State)
    (circuitName verificationKeyName : string) (cost : Z) :
  addCircuitMapping env st circuitName verificationKeyName cost = Ok st' ->
  getCircuitMapping st' circuitName = (verificationKeyName, cost)
  /\ 0 < cost
  /\ keyName (verificationKeys_at st verificationKeyName) <> ""
  /\ (forall other, other <> circuitName ->
        getCircuitMapping st' other = getCircuitMapping st other).
Proof.
  unfold addCircuitMapping. intros H.
  repeat match type of H with
         | (if ?c then _ else _) = _ => destruct c eqn:?; [|discriminate]
         end.
  injection H as <-. unfold getCircuitMapping.
  cbn [circuitMappings circuitCosts]. repeat split.
  - now rewrite !lookup_insert_eq.
  - lia.
  - intros Hk. rewrite Hk in *. discriminate.
  - intros other Hne. now rewrite !lookup_insert_ne.
Qed.

Lemma addCircuitMapping_then_get_witness :
  addCircuitMapping Examples.env1 Examples.verifier_with_key
    "income_range" "income_verification_key" 5
  = Ok Examples.verifier_with_circuit
  /\ getCircuitMapping Examples.verifier_with_circuit "income_range"
     = ("income_verification_key", 5).
Proof.
  assert (H : addCircuitMapping Examples.env1 Examples.verifier_with_key
                "income_range" "income_verification_key" 5
              = Ok Examples.verifier_with_circuit)
    by (vm_compute; reflexivity).
  split; [exact H|].
  exact (proj1 (addCircuitMapping_then_get _ _ _ _ _ _ H)).
Defined.

End VerifierCircuits.

(** * The proof service *)

Section ProofServiceProperties.

Import ZKProofService.


End ProofServiceProperties.

Section VerifierMoreExamples.

Import Verifier.

Lemma access_control_witness :
  msg_sender Examples.stranger <> owner Examples.verifier_with_key
  /\ emergencyDeactivateKey Examples.stranger Examples.verifier_with_key
       "income_verification_key"
     = Revert "Only owner can perform this action".
Proof.
  assert (H : msg_sender Examples.stranger
              <> owner Examples.verifier_with_key)
    by (vm_compute; discriminate).
  split; [exact H|].
  exact (proj2 (access_control ExampleDigest.digest Examples.stranger
                  Examples.verifier_with_key [1; 2; 3]
                  Examples.income_signals "income_verification_key"
                  [1; 2; 3] Groth16 false H)).
Defined.

Lemma operator_deactivation_is_emergency_deactivation_witness :
  msg_sender Examples.env2 = owner Examples.verifier_with_key
  /\ updateVerificationKeyStatus Examples.env1 Examples.verifier_with_key
       "income_verification_key" false = Ok Examples.verifier_deactivated
  /\ emergencyDeactivateKey Examples.env2 Examples.verifier_with_key
       "income_verification_key" = Ok Examples.verifier_deactivated.
Proof.
  assert (H1 : msg_sender Examples.env2 = owner Examples.verifier_with_key)
    by (vm_compute; reflexivity).
  assert (H2 : updateVerificationKeyStatus Examples.env1
                 Examples.verifier_with_key "income_verification_key" false
               = Ok Examples.verifier_deactivated)
    by (vm_compute; reflexivity).
  split; [exact H1|]. split; [exact H2|].
  exact (operator_deactivation_is_emergency_deactivation _ _ _ _ _ H1 H2).
Defined.

Lemma deactivated_key_verifies_nothing_witness :
  emergencyDeactivateKey Examples.env1 Examples.verifier_with_key
    "income_verification_key" = Ok Examples.verifier_deactivated
  /\ forall r, verifyProof ExampleDigest.digest Examples.env2
                 Examples.verifier_deactivated [1; 2; 3]
                 Examples.income_signals "income_verification_key" Groth16
               <> Ok r.
Proof.
  assert (H : emergencyDeactivateKey Examples.env1 Examples.verifier_with_key
                "income_verification_key" = Ok Examples.verifier_deactivated)
    by (vm_compute; reflexivity).
  split; [exact H|].
  exact (deactivated_key_verifies_nothing ExampleDigest.digest Examples.env1
           Examples.env2 _ _ _ [1; 2; 3] Examples.income_signals Groth16
           (or_introl H)).
Defined.

Lemma updateVerificationKeyStatus_then_get_witness :
  updateVerificationKeyStatus Examples.env1 Examples.verifier_with_key
    "income_verification_key" false = Ok Examples.verifier_deactivated
  /\ getVerificationKey Examples.verifier_deactivated
       "income_verification_key"
     = set_isActive false
         (getVerificationKey Examples.verifier_with_key
            "income_verification_key").
Proof.
  assert (H : updateVerificationKeyStatus Examples.env1
                Examples.verifier_with_key "income_verification_key" false
              = Ok Examples.verifier_deactivated)
    by (vm_compute; reflexivity).
  split; [exact H|].
  exact (proj1 (updateVerificationKeyStatus_then_get _ _ _ _ _ H)).
Defined.

Lemma added_key_rejects_other_system_witness :
  addVerificationKey Examples.env1 (constructor Examples.env1)
    "income_verification_key" [1; 2; 3] Groth16
  = Ok Examples.verifier_with_key
  /\ PLONK <> Groth16
  /\ forall r, verifyProof ExampleDigest.digest Examples.env2
                 Examples.verifier_with_key [1; 2; 3]
                 Examples.income_signals "income_verification_key" PLONK
               <> Ok r.
Proof.
  assert (H : addVerificationKey Examples.env1 (constructor Examples.env1)
                "income_verification_key" [1; 2; 3] Groth16
              = Ok Examples.verifier_with_key)
    by (vm_compute; reflexivity).
  assert (Hne : PLONK <> Groth16) by discriminate.
  split; [exact H|]. split; [exact Hne|].
  exact (added_key_rejects_other_system ExampleDigest.digest Examples.env1
           Examples.env2 _ _ _ _ _ _ [1; 2; 3] Examples.income_signals H Hne).
Defined.

End VerifierMoreExamples.

Section VerifierGetters.

Import Verifier.

Variable keccak256 : list abi_item -> Z.

(** X24: after a call of [verifyProof] that returned an identifier,
    [getLastProofId] answers that identifier, [getVerificationResult]
    reads under it the record of this call, with the result of the check,
    the caller and the block time, and the identifier is the last entry
    of the history of the caller. *)
Theorem verifyProof_then_getters (env : Env) (st st' : State)
    (proof publicSignals : list Z) (name : string)
    (sys : VerificationSystem) (id : Z) :
  verifyProof keccak256 env st proof publicSignals name sys = Ok (id, st') ->
  getLastProofId st' = id
  /\ proofId (getVerificationResult st' id) = id
  /\ isValid (getVerificationResult st' id)
     = _performMockVerification keccak256 proof publicSignals sys
  /\ verifier (getVerificationResult st' id) = msg_sender env
  /\ timestamp (getVerificationResult st' id) = block_timestamp env
  /\ systemUsed (getVerificationResult st' id) = sys
  /\ last (getUserVerificationHistory st' (msg_sender env)) = Some id
  /\ batchCheckVerification st' [id]
     = [_performMockVerification keccak256 proof publicSignals sys].
Proof.
  intros H. apply verifyProof_Ok_state in H.
  destruct H as (_ & _ & _ & _ & method & ->).
  unfold getLastProofId, getVerificationResult, getUserVerificationHistory,
    batchCheckVerification, verificationResults_at,
    userVerificationHistory_at.
  cbn [lastProofId verificationResults userVerificationHistory map].
  rewrite !lookup_insert_eq. cbn [default from_option].
  unfold Datatypes.id. cbn [proofId isValid verifier timestamp systemUsed].
  rewrite Z.eqb_refl, last_snoc. repeat split.
Qed.

End VerifierGetters.

Section VerifierGettersExamples.

Import Verifier.

Lemma verifyProof_then_getters_witness :
  Examples.first_call = Ok (Examples.first_id, Examples.after_first)
  /\ getLastProofId Examples.after_first = Examples.first_id
  /\ last (getUserVerificationHistory Examples.after_first
             (msg_sender Examples.env1)) = Some Examples.first_id.
Proof.
  assert (H : Examples.first_call
              = Ok (Examples.first_id, Examples.after_first))
    by (vm_compute; reflexivity).
  split; [exact H|].
  pose proof (verifyProof_then_getters ExampleDigest.digest Examples.env1
                Examples.verifier_with_key Examples.after_first [1; 2; 3]
                Examples.income_signals "income_verification_key" Groth16
                Examples.first_id H) as G.
  split; [exact (proj1 G)|].
  exact (proj1 (proj2 (proj2 (proj2 (proj2 (proj2 (proj2 G))))))).
Defined.

End VerifierGettersExamples.
